(** * qc-extract: circuit builder, dependency analysis, QASM codec and the
    logic-network front end, embedded from [src/quantumCircuit.py] and
    [src/logicNetwork.py]. *)

From Stdlib Require Import ZArith String Ascii.
From stdpp Require Import gmap strings list fin_maps pretty.

Open Scope Z_scope.

(** ** Python values and exceptions *)

(** The values stored in a gate dictionary: qubit indices are Python
    integers, the ["name"] entry is a string. *)
Inductive value : Type :=
  | VInt (z : Z)
  | VStr (s : string).

#[global] Instance value_eq_dec : EqDecision value.
Proof. solve_decision. Defined.

Definition value_to_sum (v : value) : Z + string :=
  match v with VInt z => inl z | VStr s => inr s end.

Definition value_of_sum (x : Z + string) : value :=
  match x with inl z => VInt z | inr s => VStr s end.

#[global] Instance value_countable : Countable value.
Proof.
  apply (inj_countable' value_to_sum value_of_sum).
  intros []; reflexivity.
Defined.

(** The exceptions the two modules can raise. *)
Inductive exn : Type :=
  | AssertionError
  | IndexError
  | KeyError
  | ValueError
  | AttributeError
  | NotImplementedError.

(** [def is_unique(lst): return len(lst) == len(set(lst))] *)
Definition is_unique (lst : list Z) : bool :=
  Nat.eqb (length lst) (size (list_to_set lst : gset Z)).

(** Functions that can raise return an exception or a value. *)
Definition result (A : Type) : Type := (exn + A)%type.

#[global] Instance result_ret : MRet result := fun A a => inr a.

#[global] Instance result_bind : MBind result := fun A B k m =>
  match m with
  | inl e => inl e
  | inr a => k a
  end.

(** ** The string operations of Python used by the two modules

    A text is a sequence of the characters U+0000 to U+00FF, one character
    per [ascii]; the character classes below are those of Python on this
    range. *)
Module PyStr.

(** The newline and the double quote. *)
Definition nl : string := String "010"%char "".
Definition dquote : string := String "034"%char "".

Definition code (c : ascii) : nat := nat_of_ascii c.

(** Line boundaries of [str.splitlines]: LF, VT, FF, CR, FS, GS, RS and
    NEL (U+0085). *)
Definition is_linebreak (c : ascii) : bool :=
  let n := code c in
  ((10 <=? n) && (n <=? 13) || (28 <=? n) && (n <=? 30) || (n =? 133))%nat.

(** Whitespace of [str.strip]: TAB..CR, FS..US, the space, NEL (U+0085) and
    the no-break space (U+00A0). *)
Definition is_space (c : ascii) : bool :=
  let n := code c in
  ((9 <=? n) && (n <=? 13) || (28 <=? n) && (n <=? 32) || (n =? 133)
   || (n =? 160))%nat.

(** The characters U+0000 to U+007F. *)
Definition is_ascii (c : ascii) : bool := (code c <? 128)%nat.

Definition snoc (s : string) (c : ascii) : string := s +:+ String c "".

(** [s.splitlines()]; [cur] is the line being read, if one was begun. *)
Fixpoint splitlines_go (cur : option string) (s : string) : list string :=
  match s with
  | EmptyString =>
      match cur with
      | Some l => [l]
      | None => []
      end
  | String c s' =>
      if is_linebreak c then
        default "" cur ::
          match s' with
          | String c' s'' =>
              if (Nat.eqb (code c) 13 && Nat.eqb (code c') 10)%bool
              then splitlines_go None s''
              else splitlines_go None s'
          | EmptyString => splitlines_go None s'
          end
      else splitlines_go (Some (snoc (default "" cur) c)) s'
  end.

Definition splitlines (s : string) : list string := splitlines_go None s.

(** [s.lstrip(...)], [s.rstrip(...)] for the characters satisfying [p] *)
Fixpoint lstrip_by (p : ascii → bool) (s : string) : string :=
  match s with
  | EmptyString => EmptyString
  | String c s' => if p c then lstrip_by p s' else s
  end.

Fixpoint rstrip_by (p : ascii → bool) (s : string) : string :=
  match s with
  | EmptyString => EmptyString
  | String c s' =>
      match rstrip_by p s' with
      | EmptyString => if p c then EmptyString else String c EmptyString
      | r => String c r
      end
  end.

(** [s.strip()] *)
Definition strip (s : string) : string :=
  rstrip_by is_space (lstrip_by is_space s).

Fixpoint mem (c : ascii) (chars : string) : bool :=
  match chars with
  | EmptyString => false
  | String c' chars' => if decide (c = c') then true else mem c chars'
  end.

(** [s.rstrip(chars)] *)
Definition rstrip (chars : string) (s : string) : string :=
  rstrip_by (fun c => mem c chars) s.

(** [s.startswith(pre)] *)
Definition startswith (pre s : string) : bool := String.prefix pre s.

(** [s.endswith(suf)] *)
Definition endswith (suf s : string) : bool :=
  let n := String.length s in
  let m := String.length suf in
  (m <=? n)%nat && bool_decide (substring (n - m) m s = suf).

(** [sub in s] *)
Fixpoint contains (sub s : string) : bool :=
  String.prefix sub s ||
    match s with
    | EmptyString => false
    | String _ s' => contains sub s'
    end.

(** [s.replace("", new)]: [new] is put before every character and at the
    end. *)
Fixpoint replace_empty (new s : string) : string :=
  match s with
  | EmptyString => new
  | String c s' => new +:+ String c (replace_empty new s')
  end.

(** The scan of [s.replace(old, new)] for a non-empty [old]: occurrences are
    replaced from the left and do not overlap; [skip] counts the characters
    of a replaced occurrence still to be passed. *)
Fixpoint replace_go (old new : string) (skip : nat) (s : string) : string :=
  match s with
  | EmptyString => EmptyString
  | String c s' =>
      match skip with
      | S k => replace_go old new k s'
      | O =>
          if String.prefix old s
          then new +:+ replace_go old new (String.length old - 1) s'
          else String c (replace_go old new 0 s')
      end
  end.

(** [s.replace(old, new)] *)
Definition replace (old new s : string) : string :=
  match old with
  | EmptyString => replace_empty new s
  | String _ _ => replace_go old new 0 s
  end.

(** [s.split(sep)] for a non-empty [sep]; [cur] is the part being read. *)
Fixpoint split_go (sep : string) (skip : nat) (cur : string) (s : string)
    : list string :=
  match s with
  | EmptyString => [cur]
  | String c s' =>
      match skip with
      | S k => split_go sep k cur s'
      | O =>
          if String.prefix sep s
          then cur :: split_go sep (String.length sep - 1) "" s'
          else split_go sep 0 (snoc cur c) s'
      end
  end.

Definition split (sep s : string) : list string := split_go sep 0 "" s.

(** [sep.join(parts)] *)
Fixpoint join (sep : string) (parts : list string) : string :=
  match parts with
  | [] => ""
  | [x] => x
  | x :: rest => x +:+ sep +:+ join sep rest
  end.

End PyStr.

Module QuantumCircuit.

(** A gate record is a dictionary with string keys. *)
Abbreviation gate := (gmap string value).

(** [self.n_qubits], [self.gates] *)
Record t : Type := mk {
  n_qubits : Z;
  gates : list gate
}.

(** [__init__] *)
Definition init : t := {| n_qubits := 0; gates := [] |}.

(** Methods mutate [self] in place and may raise: a method is a function
    from the circuit before the call to an outcome and the circuit after
    it.  When an exception is raised the mutations done so far stay. *)
Definition M (A : Type) : Type := t -> (exn + A) * t.

#[global] Instance M_ret : MRet M := fun A a c => (inr a, c).

#[global] Instance M_bind : MBind M := fun A B k m c =>
  match m c with
  | (inl e, c') => (inl e, c')
  | (inr a, c') => k a c'
  end.

Definition raise {A} (e : exn) : M A := fun c => (inl e, c).

(** [assert b] *)
Definition assert (b : bool) : M unit :=
  if b then mret tt else raise AssertionError.

(** [if b: m] *)
Definition when (b : bool) (m : M unit) : M unit :=
  if b then m else mret tt.

(** [lst[i]] for a literal, non-negative [i] *)
Definition index {A} (lst : list A) (i : nat) : M A :=
  match lst !! i with
  | Some a => mret a
  | None => raise IndexError
  end.

(** [self.gates.append(g)] *)
Definition gates_append (g : gate) : M unit :=
  fun c => (inr tt, {| n_qubits := n_qubits c; gates := gates c ++ [g] |}).

(** The seven dictionary literals of the builder. *)
Definition X_gate (target : Z) : gate :=
  {[ "name" := VStr "X"; "target" := VInt target ]}.
Definition HAD_gate (target : Z) : gate :=
  {[ "name" := VStr "HAD"; "target" := VInt target ]}.
Definition S_gate (target : Z) : gate :=
  {[ "name" := VStr "S"; "target" := VInt target ]}.
Definition T_gate (target : Z) : gate :=
  {[ "name" := VStr "T"; "target" := VInt target ]}.
Definition Tdg_gate (target : Z) : gate :=
  {[ "name" := VStr "Tdg"; "target" := VInt target ]}.
Definition CNOT_gate (ctrl target : Z) : gate :=
  {[ "name" := VStr "CNOT"; "ctrl" := VInt ctrl; "target" := VInt target ]}.
Definition Tof_gate (c1 c2 target : Z) : gate :=
  {[ "name" := VStr "Tof"; "ctrl1" := VInt c1; "ctrl2" := VInt c2;
     "target" := VInt target ]}.

(** [request_qubit] *)
Definition request_qubit : M Z :=
  fun c =>
    let c' := {| n_qubits := n_qubits c + 1; gates := gates c |} in
    (inr (n_qubits c' - 1), c').

(** [[self.request_qubit() for _ in range(n)]] with [k] iterations left *)
Fixpoint request_qubits_loop (k : nat) : M (list Z) :=
  match k with
  | O => mret []
  | S k' =>
      q ← request_qubit ;
      qs ← request_qubits_loop k' ;
      mret (q :: qs)
  end.

(** [request_qubits]: [range(n)] is empty for [n <= 0] *)
Definition request_qubits (n : Z) : M (list Z) :=
  request_qubits_loop (Z.to_nat n).

Definition add_x (target : Z) : M unit := gates_append (X_gate target).
Definition add_h (target : Z) : M unit := gates_append (HAD_gate target).
Definition add_s (target : Z) : M unit := gates_append (S_gate target).
Definition add_t (target : Z) : M unit := gates_append (T_gate target).
Definition add_tdg (target : Z) : M unit := gates_append (Tdg_gate target).

(** [add_cnot(ctrl, target, p=False)] *)
Definition add_cnot (ctrl target : Z) (p : bool) : M unit :=
  when p (add_x ctrl) ;;
  gates_append (CNOT_gate ctrl target) ;;
  when p (add_x ctrl).

(** [add_cz] *)
Definition add_cz (ctrl target : Z) : M unit :=
  add_h target ;;
  gates_append (CNOT_gate ctrl target) ;;
  add_h target.

(** [add_z] *)
Definition add_z (target : Z) : M unit :=
  add_h target ;;
  gates_append (X_gate target) ;;
  add_h target.

(** [add_toffoli(c1, c2, target, p1=False, p2=False, clean=False)] *)
Definition add_toffoli (c1 c2 target : Z) (p1 p2 clean : bool) : M unit :=
  assert (is_unique [c1; c2; target]) ;;
  when p1 (add_x c1) ;;
  when p2 (add_x c2) ;;
  (if clean then
     add_h target ;;
     add_t target ;;
     add_cnot c1 target false ;;
     add_cnot c2 target false ;;
     add_cnot target c2 false ;;
     add_cnot target c1 false ;;
     add_tdg c1 ;;
     add_tdg c2 ;;
     add_t target ;;
     add_cnot target c1 false ;;
     add_cnot target c2 false ;;
     add_h target ;;
     add_s c1
   else gates_append (Tof_gate c1 c2 target)) ;;
  when p1 (add_x c1) ;;
  when p2 (add_x c2).

(** The default of [ps] in [add_mcx(cs, target, ps=[], clean=False)]. *)
Definition add_mcx_default_ps : list bool := [].

(** [add_mcx] *)
Definition add_mcx (cs : list Z) (target : Z) (ps : list bool)
    (clean : bool) : M unit :=
  assert (Nat.leb (length cs) 2) ;;
  if Nat.eqb (length cs) 1 then
    c0 ← index cs 0 ;
    p0 ← index ps 0 ;
    add_cnot c0 target p0
  else if Nat.eqb (length cs) 2 then
    c0 ← index cs 0 ;
    c1 ← index cs 1 ;
    p0 ← index ps 0 ;
    p1 ← index ps 1 ;
    add_toffoli c0 c1 target p0 p1 clean
  else mret tt.

(** [add_gate]: appends a copy of the dictionary *)
Definition add_gate (g : gate) : M unit := gates_append g.

(** [gate[k]]: a missing key raises [KeyError]. *)
Definition getitem (g : gate) (k : string) : result value :=
  match g !! k with
  | Some v => inr v
  | None => inl KeyError
  end.

(** [sum(1 for gate in gs if gate["name"] in ["T", "Tdg"])] *)
Fixpoint num_t_gates (gs : list gate) : result Z :=
  match gs with
  | [] => inr 0
  | g :: gs' =>
      match getitem g "name" with
      | inl e => inl e
      | inr name =>
          match num_t_gates gs' with
          | inl e => inl e
          | inr k =>
              inr (if bool_decide (name ∈ [VStr "T"; VStr "Tdg"])
                   then 1 + k else k)
          end
      end
  end.

(** property [num_t] *)
Definition num_t (c : t) : result Z := num_t_gates (gates c).

(** property [num_gates] *)
Definition num_gates (c : t) : Z := Z.of_nat (length (gates c)).

(** [deps.add(x)] *)
Definition set_add (x : value) (deps : gset value) : gset value :=
  deps ∪ {[x]}.

(** [deps_of] (a static method) *)
Definition deps_of (g : gate) : result (gset value) :=
  let deps : gset value := ∅ in
  name ← getitem g "name" ;
  if decide (name = VStr "CNOT") then
    ctrl ← getitem g "ctrl" ;
    let deps := set_add ctrl deps in
    target ← getitem g "target" ;
    let deps := set_add target deps in
    mret deps
  else
    if decide (name = VStr "Tof") then
      ctrl1 ← getitem g "ctrl1" ;
      let deps := set_add ctrl1 deps in
      ctrl2 ← getitem g "ctrl2" ;
      let deps := set_add ctrl2 deps in
      target ← getitem g "target" ;
      let deps := set_add target deps in
      mret deps
    else
      target ← getitem g "target" ;
      let deps := set_add target deps in
      mret deps.

(** [to_json] *)
Definition to_json (c : t) : list gate := gates c.

(** What an f-string writes for [{v}]. *)
Definition format (v : value) : string :=
  match v with
  | VInt z => pretty z
  | VStr s => s
  end.

(** The body of the loop of [to_qasm]: the text after the line of [g]. *)
Definition to_qasm_gate (qasm_str : string) (g : gate) : result string :=
  name ← getitem g "name" ;
  if decide (name = VStr "Tof") then
    ctrl1 ← getitem g "ctrl1" ;
    ctrl2 ← getitem g "ctrl2" ;
    target ← getitem g "target" ;
    mret (qasm_str +:+
            ("ccx q[" +:+ format ctrl1 +:+ "], q[" +:+ format ctrl2 +:+
             "], q[" +:+ format target +:+ "];" +:+ PyStr.nl))
  else if decide (name = VStr "CNOT") then
    ctrl ← getitem g "ctrl" ;
    target ← getitem g "target" ;
    mret (qasm_str +:+
            ("cx q[" +:+ format ctrl +:+ "], q[" +:+ format target +:+
             "];" +:+ PyStr.nl))
  else if decide (name = VStr "X") then
    target ← getitem g "target" ;
    mret (qasm_str +:+ ("x q[" +:+ format target +:+ "];" +:+ PyStr.nl))
  else if decide (name = VStr "HAD") then
    target ← getitem g "target" ;
    mret (qasm_str +:+ ("h q[" +:+ format target +:+ "];" +:+ PyStr.nl))
  else if decide (name = VStr "S") then
    target ← getitem g "target" ;
    mret (qasm_str +:+ ("s q[" +:+ format target +:+ "];" +:+ PyStr.nl))
  else if decide (name = VStr "T") then
    target ← getitem g "target" ;
    mret (qasm_str +:+ ("t q[" +:+ format target +:+ "];" +:+ PyStr.nl))
  else if decide (name = VStr "Tdg") then
    target ← getitem g "target" ;
    mret (qasm_str +:+ ("tdg q[" +:+ format target +:+ "];" +:+ PyStr.nl))
  else inl NotImplementedError.

(** [for gate in self.gates: ...] *)
Fixpoint to_qasm_loop (qasm_str : string) (gs : list gate) : result string :=
  match gs with
  | [] => mret qasm_str
  | g :: gs' =>
      qasm_str ← to_qasm_gate qasm_str g ;
      to_qasm_loop qasm_str gs'
  end.

(** The three header lines written before the loop. *)
Definition to_qasm_header (c : t) : string :=
  let qasm_str := "OPENQASM 2.0;" +:+ PyStr.nl in
  let qasm_str :=
    qasm_str +:+
      ("include " +:+ PyStr.dquote +:+ "qelib1.inc" +:+ PyStr.dquote +:+
       ";" +:+ PyStr.nl) in
  qasm_str +:+ ("qreg q[" +:+ pretty (n_qubits c) +:+ "];" +:+ PyStr.nl).

(** A gate object of the external parser: its [name] and its integer
    attributes ([ctrl1], [ctrl2], [control], [target]). *)
Record zx_gate : Type := mk_zx_gate {
  zx_name : string;
  zx_attrs : gmap string Z
}.

(** The parsed circuit: [qc.qubits] and [qc.gates]. *)
Record zx_circuit : Type := mk_zx_circuit {
  zx_qubits : Z;
  zx_gates : list zx_gate
}.

(** [gate.attr] *)
Definition getattr (g : zx_gate) (attr : string) : M Z :=
  match zx_attrs g !! attr with
  | Some z => mret z
  | None => raise AttributeError
  end.

(** The body of the loop of [from_qasm]: one builder call per parsed gate,
    with the builder's default polarities and clean flag. *)
Definition from_qasm_gate (g : zx_gate) : M unit :=
  if decide (zx_name g = "Tof") then
    ctrl1 ← getattr g "ctrl1" ;
    ctrl2 ← getattr g "ctrl2" ;
    target ← getattr g "target" ;
    add_toffoli ctrl1 ctrl2 target false false false
  else if decide (zx_name g = "CNOT") then
    control ← getattr g "control" ;
    target ← getattr g "target" ;
    add_cnot control target false
  else if decide (zx_name g = "CZ") then
    control ← getattr g "control" ;
    target ← getattr g "target" ;
    add_cz control target
  else if decide (zx_name g = "Z") then
    target ← getattr g "target" ;
    add_z target
  else if decide (zx_name g = "X") then
    target ← getattr g "target" ;
    add_x target
  else if decide (zx_name g = "HAD") then
    target ← getattr g "target" ;
    add_h target
  else if decide (zx_name g = "S") then
    target ← getattr g "target" ;
    add_s target
  else if decide (zx_name g = "T") then
    target ← getattr g "target" ;
    add_t target
  else if decide (zx_name g = "Tdg") then
    target ← getattr g "target" ;
    add_tdg target
  else raise NotImplementedError.

(** [for gate in qc.gates: ...] *)
Fixpoint from_qasm_loop (gs : list zx_gate) : M unit :=
  match gs with
  | [] => mret tt
  | g :: gs' => from_qasm_gate g ;; from_qasm_loop gs'
  end.

Section External.

(** The external ZX-calculus pipeline run on the exported text when
    [run_zx] is set, and the external parser [zx.Circuit.from_qasm]:
    both belong to the pyzx package. *)
Variable zx_optimize : string → result string.
Variable zx_from_qasm : string → result zx_circuit.

(** [to_qasm(run_zx=False)] *)
Definition to_qasm (run_zx : bool) (c : t) : result string :=
  qasm_str ← to_qasm_loop (to_qasm_header c) (gates c) ;
  if run_zx then zx_optimize qasm_str else mret qasm_str.

(** [from_qasm] (a static method): the circuit is built on a new
    object, which is returned when no call raised. *)
Definition from_qasm (qasm : string) : result t :=
  qc ← zx_from_qasm qasm ;
  let circuit := init in
  match (request_qubits (zx_qubits qc) ;;
         from_qasm_loop (zx_gates qc)) circuit with
  | (inl e, _) => inl e
  | (inr _, circuit) => inr circuit
  end.

End External.

End QuantumCircuit.

(** ** The logic-network front end ([src/logicNetwork.py]) *)
Module LogicGate.

(** The [data] of a logic gate is a reference to a dictionary object.  The
    heap holds the dictionary objects; a dictionary display allocates a new
    one. *)
Abbreviation dict := (gmap string bool).
Definition loc : Type := nat.
Definition heap : Type := list dict.

(** The object of the default [data = {}] of [LogicGate.__init__]: the
    default value is evaluated once, when the function is defined. *)
Definition default_data : loc := 0%nat.
Definition initial_heap : heap := [∅].

Definition H (A : Type) : Type := heap → (exn + A) * heap.

#[global] Instance H_ret : MRet H := fun A a h => (inr a, h).

#[global] Instance H_bind : MBind H := fun A B k m h =>
  match m h with
  | (inl e, h') => (inl e, h')
  | (inr a, h') => k a h'
  end.

Definition throw {A} (e : exn) : H A := fun h => (inl e, h).

(** A dictionary display [{...}]: a new object. *)
Definition new_dict (d : dict) : H loc :=
  fun h => (inr (length h), h ++ [d]).

(** [d[k] = v] on the object at [l] *)
Definition dict_setitem (l : loc) (k : string) (v : bool) : H unit :=
  fun h => (inr tt, alter (fun d => <[k := v]> d) l h).

(** The contents of the object at [l]. *)
Definition dict_read (l : loc) : H dict :=
  fun h =>
    match h !! l with
    | Some d => (inr d, h)
    | None => (inl KeyError, h)
    end.

(** The attributes of a [LogicGate]. *)
Record t : Type := mk {
  gate_type : string;
  inputs : list string;
  output : string;
  data : loc
}.

(** [__init__(gate_type, inputs, output, data={})]: [None] is a
    call that leaves [data] out. *)
Definition init (gate_type : string) (inputs : list string)
    (output : string) (data : option loc) : t :=
  {| gate_type := gate_type;
     inputs := inputs;
     output := output;
     data := default default_data data |}.

(** The loop [for op in ops] of [from_assignment] and the code after it. *)
Fixpoint from_assignment_ops (ops : list string)
    (assign_to assign_from : string) (map_or : bool) : H t :=
  match ops with
  | op :: ops' =>
      if PyStr.contains op assign_from then
        match PyStr.strip <$> PyStr.split op assign_from with
        | [s1; s2] =>
            let p1 := PyStr.contains "~" s1 in
            let p2 := PyStr.contains "~" s2 in
            let s1 := PyStr.replace "~" "" s1 in
            let s2 := PyStr.replace "~" "" s2 in
            if map_or && bool_decide (op = "|") then
              d ← new_dict {[ "p1" := negb p1; "p2" := negb p2;
                              "p3" := true ]} ;
              mret (init "&" [s1; s2] assign_to (Some d))
            else
              d ← new_dict {[ "p1" := p1; "p2" := p2; "p3" := false ]} ;
              mret (init op [s1; s2] assign_to (Some d))
        | _ => throw ValueError
        end
      else from_assignment_ops ops' assign_to assign_from map_or
  | [] =>
      let p := PyStr.contains "~" assign_from in
      let s := PyStr.replace "~" "" assign_from in
      mret (init "=" [s] assign_to None)
  end.

(** [from_assignment(assign_str, map_or=True)] (a static method) *)
Definition from_assignment (assign_str : string) (map_or : bool)
    : H t :=
  match PyStr.strip <$> PyStr.split "=" assign_str with
  | [assign_to; assign_from] =>
      from_assignment_ops ["&"; "|"; "^"] assign_to assign_from map_or
  | _ => throw ValueError
  end.

(** [to_assignment] *)
Definition to_assignment (g : t) : H string :=
  throw NotImplementedError.

(** property [is_and] *)
Definition is_and (g : t) : bool :=
  bool_decide (gate_type g = "&").

End LogicGate.

(** [_get_list(lst_str, s)] *)
Definition _get_list (lst_str s : string) : list string :=
  let _str := PyStr.strip (PyStr.replace s "" lst_str) in
  PyStr.strip <$>
    filter (fun x => PyStr.strip x ≠ "") (PyStr.split "," _str).

Module LogicNetwork.

(** The attributes of a [LogicNetwork]. *)
Record t : Type := mk {
  inputs : list string;
  outputs : list string;
  gates : gmap string LogicGate.t
}.

Definition init : t := {| inputs := []; outputs := []; gates := ∅ |}.

(** The loop over [("input", ntk.inputs), ("output", ntk.outputs)]: the
    first keyword the line starts with extends its list. *)
Definition extend_ports (line : string) (ntk : t) : t :=
  if PyStr.startswith "input" line then
    {| inputs := inputs ntk ++ _get_list line "input";
       outputs := outputs ntk;
       gates := gates ntk |}
  else if PyStr.startswith "output" line then
    {| inputs := inputs ntk;
       outputs := outputs ntk ++ _get_list line "output";
       gates := gates ntk |}
  else ntk.

(** The body of the outer loop of [from_verilog] once the statement [line]
    ends with a semicolon. *)
Definition statement (line : string) (ntk : t) : LogicGate.H t :=
  let line := PyStr.rstrip ";" line in
  let ntk := extend_ports line ntk in
  if PyStr.startswith "assign" line then
    match _get_list line "assign" !! 0%nat with
    | Some assign_str =>
        gate ← LogicGate.from_assignment assign_str true ;
        mret {| inputs := inputs ntk;
                outputs := outputs ntk;
                gates := <[LogicGate.output gate := gate]> (gates ntk) |}
    | None => LogicGate.throw IndexError
    end
  else mret ntk.

(** The loops of [from_verilog] over the lines from index [i] on.
    [pending] is the statement the inner [while] is gathering, when the
    lines read so far do not end it. *)
Fixpoint from_verilog_loop (pending : option string) (lines : list string)
    (ntk : t) : LogicGate.H t :=
  match lines with
  | [] =>
      match pending with
      | None => mret ntk
      | Some _ => LogicGate.throw IndexError
      end
  | l :: lines' =>
      match pending with
      | None =>
          let line := PyStr.strip l in
          if PyStr.startswith "//" line || bool_decide (line = "")
          then from_verilog_loop None lines' ntk
          else if PyStr.startswith "endmodule" line then mret ntk
          else if PyStr.endswith ";" line then
            ntk ← statement line ntk ;
            from_verilog_loop None lines' ntk
          else from_verilog_loop (Some line) lines' ntk
      | Some line =>
          let line := line +:+ PyStr.strip l in
          if PyStr.endswith ";" line then
            ntk ← statement line ntk ;
            from_verilog_loop None lines' ntk
          else from_verilog_loop (Some line) lines' ntk
      end
  end.

(** [from_verilog(verilog_str)] (a static method) *)
Definition from_verilog (verilog_str : string) : LogicGate.H t :=
  from_verilog_loop None (PyStr.splitlines verilog_str) init.

(** [for gate in self.gates.values(): verilog_str += gate.to_assignment()
    + "\n"] *)
Fixpoint to_verilog_loop (verilog_str : string) (gs : list LogicGate.t)
    : LogicGate.H string :=
  match gs with
  | [] => mret verilog_str
  | gate :: gs' =>
      assignment ← LogicGate.to_assignment gate ;
      to_verilog_loop (verilog_str +:+ (assignment +:+ PyStr.nl)) gs'
  end.

(** [to_verilog].  The keys and the values of [self.gates] are taken in the
    order of the finite map, not in the order of insertion; the outcome does
    not depend on it, since the loop raises at the first gate and the list
    of wires is empty when there is no gate. *)
Definition to_verilog (ntk : t) : LogicGate.H string :=
  let verilog_str := "module top(" +:+ PyStr.nl in
  let verilog_str :=
    verilog_str +:+
      (PyStr.join ", " (inputs ntk ++ outputs ntk) +:+ PyStr.nl) in
  let verilog_str := verilog_str +:+ (");" +:+ PyStr.nl) in
  let verilog_str :=
    verilog_str +:+
      ("  input " +:+ PyStr.join ", " (inputs ntk) +:+ ";" +:+ PyStr.nl) in
  let verilog_str :=
    verilog_str +:+
      ("  output " +:+ PyStr.join ", " (outputs ntk) +:+ ";" +:+ PyStr.nl) in
  let verilog_str :=
    verilog_str +:+
      ("  wire " +:+
       PyStr.join ", "
         (filter (fun k => k ∉ inputs ntk ++ outputs ntk)
                 (map_to_list (gates ntk)).*1) +:+
       ";" +:+ PyStr.nl) in
  verilog_str ← to_verilog_loop verilog_str (map_to_list (gates ntk)).*2 ;
  mret (verilog_str +:+ ("endmodule" +:+ PyStr.nl)).

(** property [n_ands] *)
Definition n_ands (ntk : t) : nat :=
  length (filter (fun g => LogicGate.is_and g = true)
                 (map_to_list (gates ntk)).*2).

End LogicNetwork.

Import QuantumCircuit.

(** ** The gate kinds and the assembly format as the specification words them *)

(** The seven recognized kinds, each with the qubit indices it carries. *)
Inductive kind : Type :=
  | KToffoli (control1 control2 target : Z)
  | KCNOT (control target : Z)
  | KX (target : Z)
  | KHadamard (target : Z)
  | KS (target : Z)
  | KT (target : Z)
  | KTdg (target : Z).

(** The record the builder stores for a kind. *)
Definition record (k : kind) : gate :=
  match k with
  | KToffoli c1 c2 t => Tof_gate c1 c2 t
  | KCNOT c t => CNOT_gate c t
  | KX t => X_gate t
  | KHadamard t => HAD_gate t
  | KS t => S_gate t
  | KT t => T_gate t
  | KTdg t => Tdg_gate t
  end.

(** The per-kind line forms of the assembly format:
    [ccx q[c1], q[c2], q[t];], [cx q[c], q[t];], [x q[t];], [h q[t];],
    [s q[t];], [t q[t];], [tdg q[t];]. *)
Definition qasm_line (k : kind) : string :=
  match k with
  | KToffoli c1 c2 t =>
      "ccx q[" +:+ pretty c1 +:+ "], q[" +:+ pretty c2 +:+ "], q[" +:+
      pretty t +:+ "];"
  | KCNOT c t => "cx q[" +:+ pretty c +:+ "], q[" +:+ pretty t +:+ "];"
  | KX t => "x q[" +:+ pretty t +:+ "];"
  | KHadamard t => "h q[" +:+ pretty t +:+ "];"
  | KS t => "s q[" +:+ pretty t +:+ "];"
  | KT t => "t q[" +:+ pretty t +:+ "];"
  | KTdg t => "tdg q[" +:+ pretty t +:+ "];"
  end.

(** The three header lines: version, include directive, register. *)
Definition header_lines (qubit_count : Z) : list string :=
  [ "OPENQASM 2.0;";
    "include " +:+ PyStr.dquote +:+ "qelib1.inc" +:+ PyStr.dquote +:+ ";";
    "qreg q[" +:+ pretty qubit_count +:+ "];" ].

(** A text made of the given lines, each ended by a newline. *)
Fixpoint unlines (ls : list string) : string :=
  match ls with
  | [] => ""
  | l :: ls' => l +:+ PyStr.nl +:+ unlines ls'
  end.

(** All characters of a string satisfy [p]. *)
Fixpoint str_forall (p : ascii → bool) (s : string) : bool :=
  match s with
  | EmptyString => true
  | String c s' => p c && str_forall p s'
  end.

(** A character that ends no line. *)
Definition no_break (c : ascii) : bool := negb (PyStr.is_linebreak c).

(** The names of the seven kinds of records that [to_qasm] writes. *)
Definition qasm_names : list value :=
  [ VStr "Tof"; VStr "CNOT"; VStr "X"; VStr "HAD"; VStr "S"; VStr "T";
    VStr "Tdg" ].

(** The gate names that [from_qasm] replays. *)
Definition import_names : list string :=
  [ "Tof"; "CNOT"; "CZ"; "Z"; "X"; "HAD"; "S"; "T"; "Tdg" ].

(** The parsed gates that [from_qasm] replays as three records, by
    [add_cz] and [add_z]. *)
Definition hadamard_conjugated (g : zx_gate) : bool :=
  bool_decide (zx_name g ∈ ["CZ"; "Z"]).

(** The characters of a decimal integer: the digits and the minus sign. *)
Definition numeral (c : ascii) : bool :=
  let n := PyStr.code c in
  ((48 <=? n) && (n <=? 57) || (n =? 45))%nat.

(** The characters other than [c]. *)
Definition other_than (c : ascii) (d : ascii) : bool :=
  negb (bool_decide (d = c)).

(** The characters that [str.strip] keeps. *)
Definition nonspace (c : ascii) : bool := negb (PyStr.is_space c).

(** A text of whitespace only. *)
Definition spaces (s : string) : Prop := str_forall PyStr.is_space s = true.

(** A text of ASCII whitespace only. *)
Definition blank (s : string) : Prop :=
  str_forall (fun c => PyStr.is_space c && PyStr.is_ascii c) s = true.

(** The characters of a wire name: ASCII characters that are no whitespace
    and none of the characters [=], [&], [|], [^], [~] that
    [from_assignment] looks for. *)
Definition name_char (c : ascii) : bool :=
  nonspace c && negb (PyStr.mem c "=&|^~") && PyStr.is_ascii c.

(** A text of ASCII characters. *)
Definition ascii_text (s : string) : Prop :=
  str_forall PyStr.is_ascii s = true.

(** A wire name: not empty, of name characters. *)
Definition wire_name (s : string) : Prop :=
  s ≠ "" ∧ str_forall name_char s = true.

(** The optional negation sign in front of an operand. *)
Definition tilde (negated : bool) : string := if negated then "~" else "".

(** The number of occurrences of the character [c] in a text. *)
Fixpoint count_char (c : ascii) (s : string) : nat :=
  match s with
  | EmptyString => 0%nat
  | String d s' => ((if bool_decide (d = c) then 1 else 0) + count_char c s')%nat
  end.

(** The lines that [from_verilog] passes over: comments and blank lines. *)
Definition skipped_line (l : string) : bool :=
  PyStr.startswith "//" (PyStr.strip l) || bool_decide (PyStr.strip l = "").

(** ** Helper lemmas *)

Lemma size_gset_3 (a b c : Z) :
  a ≠ b → a ≠ c → b ≠ c → size ({[a]} ∪ ({[b]} ∪ ({[c]} ∪ ∅)) : gset Z) = 3%nat.
Proof.
  intros Hab Hac Hbc.
  rewrite (right_id_L ∅ (∪)).
  rewrite !size_union, !size_singleton; [reflexivity| |].
  - apply disjoint_singleton_l. by rewrite elem_of_singleton.
  - apply disjoint_singleton_l.
    rewrite elem_of_union, !elem_of_singleton. tauto.
Qed.

Lemma size_within_pair (a b : Z) (X : gset Z) :
  X ⊆ {[a]} ∪ {[b]} → (size X ≤ 2)%nat.
Proof.
  intros HX. etrans; [apply (subseteq_size _ _ HX)|].
  rewrite size_union_alt, size_singleton.
  assert (Hle : (size (({[b]} : gset Z) ∖ {[a]}) ≤ size ({[b]} : gset Z))%nat).
  { apply subseteq_size. apply subseteq_difference_l. reflexivity. }
  rewrite size_singleton in Hle. lia.
Qed.

Lemma is_unique_3 (c1 c2 t : Z) :
  is_unique [c1; c2; t] = true ↔ c1 ≠ c2 ∧ c1 ≠ t ∧ c2 ≠ t.
Proof.
  unfold is_unique. cbn [length list_to_set foldr].
  rewrite Nat.eqb_eq. split.
  - intros Hsz.
    assert (Hpair : ∀ a b : Z,
      ({[c1]} ∪ ({[c2]} ∪ ({[t]} ∪ ∅)) : gset Z) ⊆ {[a]} ∪ {[b]} → False).
    { intros a b Hsub%size_within_pair. lia. }
    repeat split; intros ->.
    + apply (Hpair c2 t). intros x.
      rewrite !elem_of_union, !elem_of_singleton, elem_of_empty. tauto.
    + apply (Hpair c2 t). intros x.
      rewrite !elem_of_union, !elem_of_singleton, elem_of_empty. tauto.
    + apply (Hpair c1 t). intros x.
      rewrite !elem_of_union, !elem_of_singleton, elem_of_empty. tauto.
  - intros (H1 & H2 & H3). symmetry. by apply size_gset_3.
Qed.

Lemma is_unique_3_false (c1 c2 t : Z) :
  c1 = c2 ∨ c1 = t ∨ c2 = t → is_unique [c1; c2; t] = false.
Proof.
  intros Hdup. apply not_true_is_false. rewrite is_unique_3. tauto.
Qed.

Lemma num_t_gates_app (gs gs' : list gate) (n m : Z) :
  num_t_gates gs = inr n → num_t_gates gs' = inr m →
  num_t_gates (gs ++ gs') = inr (n + m).
Proof.
  revert n. induction gs as [|g gs IH]; intros n Hn Hm; cbn in *.
  - injection Hn as <-. by rewrite Hm.
  - destruct (getitem g "name") as [e|name]; [discriminate|].
    destruct (num_t_gates gs) as [e|k]; [discriminate|].
    rewrite (IH k eq_refl Hm). injection Hn as <-.
    f_equal. case_bool_decide; lia.
Qed.

(** Unfolds one builder call on a symbolic circuit. *)
Ltac run_builder :=
  unfold add_toffoli, add_mcx, add_cnot, add_cz, add_z, add_x, add_h, add_s,
    add_t, add_tdg, add_gate, when, assert, index, gates_append, raise,
    mbind, M_bind, mret, M_ret;
  cbn [n_qubits gates lookup list_lookup length Nat.leb Nat.eqb].

(** ** The Toffoli builder *)

(** C3: a call of [add_toffoli] with two equal indices among c1, c2, target
    raises the assertion error of the uniqueness check, whatever p1, p2 and
    clean are, and leaves the circuit as it was: no gate record is appended. *)
Theorem add_toffoli_duplicate_fails (c1 c2 target : Z) (p1 p2 clean : bool)
    (c : QuantumCircuit.t) :
  c1 = c2 ∨ c1 = target ∨ c2 = target →
  add_toffoli c1 c2 target p1 p2 clean c = (inl AssertionError, c).
Proof.
  intros Hdup%is_unique_3_false.
  run_builder. rewrite Hdup. reflexivity.
Qed.

Lemma add_toffoli_duplicate_fails_witness :
  add_toffoli 0 1 0 true false true (mk 2 [X_gate 1])
  = (inl AssertionError, mk 2 [X_gate 1]).
Proof. apply add_toffoli_duplicate_fails. right; left; reflexivity. Defined.

(** C1: for pairwise distinct c1, c2, target the clean variant with both
    polarities false succeeds and appends exactly the 13 records
    H(t) T(t) CNOT(c1,t) CNOT(c2,t) CNOT(t,c2) CNOT(t,c1) Tdg(c1) Tdg(c2)
    T(t) CNOT(t,c1) CNOT(t,c2) H(t) S(c1), in this order; the T-count of the
    circuit grows by exactly 4. *)
Theorem add_toffoli_clean_sequence (c1 c2 target : Z) (c : QuantumCircuit.t)
    (n : Z) :
  c1 ≠ c2 → c1 ≠ target → c2 ≠ target →
  num_t c = inr n →
  ∃ appended c',
    add_toffoli c1 c2 target false false true c = (inr tt, c')
    ∧ n_qubits c' = n_qubits c
    ∧ gates c' = gates c ++ appended
    ∧ appended =
        [ HAD_gate target; T_gate target; CNOT_gate c1 target;
          CNOT_gate c2 target; CNOT_gate target c2; CNOT_gate target c1;
          Tdg_gate c1; Tdg_gate c2; T_gate target; CNOT_gate target c1;
          CNOT_gate target c2; HAD_gate target; S_gate c1 ]
    ∧ length appended = 13%nat
    ∧ num_t c' = inr (n + 4).
Proof.
  intros H12 H1t H2t Hn.
  assert (Hu : is_unique [c1; c2; target] = true) by (by apply is_unique_3).
  eexists _, _. split; [|split; [|split; [|split; [reflexivity|split]]]].
  - run_builder. rewrite Hu. reflexivity.
  - reflexivity.
  - cbn [gates]. rewrite <- !app_assoc. reflexivity.
  - reflexivity.
  - unfold num_t. cbn [gates]. rewrite <- !app_assoc. cbn [app].
    apply num_t_gates_app; [exact Hn|]. vm_compute. reflexivity.
Qed.

Lemma add_toffoli_clean_sequence_witness :
  ∃ appended c',
    add_toffoli 0 1 2 false false true (mk 3 [T_gate 0]) = (inr tt, c')
    ∧ n_qubits c' = 3
    ∧ gates c' = [T_gate 0] ++ appended
    ∧ appended =
        [ HAD_gate 2; T_gate 2; CNOT_gate 0 2;
          CNOT_gate 1 2; CNOT_gate 2 1; CNOT_gate 2 0;
          Tdg_gate 0; Tdg_gate 1; T_gate 2; CNOT_gate 2 0;
          CNOT_gate 2 1; HAD_gate 2; S_gate 0 ]
    ∧ length appended = 13%nat
    ∧ num_t c' = inr (1 + 4).
Proof.
  apply (add_toffoli_clean_sequence 0 1 2 (mk 3 [T_gate 0]) 1);
    [lia | lia | lia | vm_compute; reflexivity].
Defined.

(** ** Negative controls *)

Lemma add_cnot_gates (ctrl target : Z) (p : bool) (c : QuantumCircuit.t) :
  add_cnot ctrl target p c
  = (inr tt,
     mk (n_qubits c)
        (gates c ++
           if p then [X_gate ctrl; CNOT_gate ctrl target; X_gate ctrl]
           else [CNOT_gate ctrl target])).
Proof. destruct p; run_builder; rewrite <- ?app_assoc; reflexivity. Qed.

(** C4: a negative control is an X-conjugation of the core sequence.
    [add_cnot] with p true appends the 3 records X(control),
    CNOT(control,target), X(control) and with p false the single CNOT;
    [add_toffoli] with p1 true, p2 false, clean false, on distinct qubits,
    appends X(c1), Toffoli(c1,c2,t), X(c1) in that order. *)
Theorem negative_control_is_x_conjugation (control target : Z)
    (c1 c2 t : Z) (c : QuantumCircuit.t) :
  c1 ≠ c2 → c1 ≠ t → c2 ≠ t →
  add_cnot control target true c
    = (inr tt,
       mk (n_qubits c)
          (gates c ++
             [X_gate control; CNOT_gate control target; X_gate control]))
  ∧ add_cnot control target false c
    = (inr tt, mk (n_qubits c) (gates c ++ [CNOT_gate control target]))
  ∧ add_toffoli c1 c2 t true false false c
    = (inr tt,
       mk (n_qubits c)
          (gates c ++ [X_gate c1; Tof_gate c1 c2 t; X_gate c1])).
Proof.
  intros H12 H1t H2t.
  assert (Hu : is_unique [c1; c2; t] = true) by (by apply is_unique_3).
  split; [apply add_cnot_gates|split; [apply add_cnot_gates|]].
  run_builder. rewrite Hu. rewrite <- !app_assoc. reflexivity.
Qed.

Lemma negative_control_is_x_conjugation_witness :
  add_cnot 0 1 true init
    = (inr tt, mk 0 ([] ++ [X_gate 0; CNOT_gate 0 1; X_gate 0]))
  ∧ add_cnot 0 1 false init = (inr tt, mk 0 ([] ++ [CNOT_gate 0 1]))
  ∧ add_toffoli 0 1 2 true false false init
    = (inr tt, mk 0 ([] ++ [X_gate 0; Tof_gate 0 1 2; X_gate 0])).
Proof.
  apply (negative_control_is_x_conjugation 0 1 0 1 2 init); lia.
Defined.

(** ** Multi-controlled X *)

(** With one control and a polarity supplied, [add_mcx] is [add_cnot]. *)
Lemma add_mcx_one_control (ctrl target : Z) (p : bool) (ps : list bool)
    (clean : bool) (c : QuantumCircuit.t) :
  add_mcx [ctrl] target (p :: ps) clean c = add_cnot ctrl target p c.
Proof. reflexivity. Qed.

(** With two controls and two polarities supplied, it is [add_toffoli]. *)
Lemma add_mcx_two_controls (ctrl1 ctrl2 target : Z) (p1 p2 : bool)
    (ps : list bool) (clean : bool) (c : QuantumCircuit.t) :
  add_mcx [ctrl1; ctrl2] target (p1 :: p2 :: ps) clean c
  = add_toffoli ctrl1 ctrl2 target p1 p2 clean c.
Proof. reflexivity. Qed.

(** C6, at the default polarities list: [add_mcx([ctrl], target)] should
    append one CNOT(ctrl, target) record, as [add_cnot(ctrl, target)] does
    with its default polarity.  The code evaluates [ps[0]] on the empty
    default list: the call raises [IndexError] and appends nothing. *)
Theorem add_mcx_default_polarities_raise (ctrl target : Z) (clean : bool)
    (c : QuantumCircuit.t) :
  add_mcx [ctrl] target add_mcx_default_ps clean c = (inl IndexError, c).
Proof. reflexivity. Qed.

(** C7: more than two controls: the arity assertion fails first, for every
    target, polarities list and clean flag, and the circuit is unchanged. *)
Theorem add_mcx_unsupported_arity (cs : list Z) (target : Z)
    (ps : list bool) (clean : bool) (c : QuantumCircuit.t) :
  (2 < length cs)%nat →
  add_mcx cs target ps clean c = (inl AssertionError, c).
Proof.
  intros Hlen. unfold add_mcx.
  destruct (Nat.leb_spec (length cs) 2) as [Hle|_]; [lia|].
  reflexivity.
Qed.

Lemma add_mcx_unsupported_arity_witness :
  add_mcx [0; 1; 2] 3 [false; true; false] true (mk 4 [HAD_gate 3])
  = (inl AssertionError, mk 4 [HAD_gate 3]).
Proof. apply add_mcx_unsupported_arity. cbn. lia. Defined.

(** ** Dependency analysis *)

Lemma gset_add_1 (a : value) : set_add a ∅ = {[a]}.
Proof. unfold set_add. apply (left_id_L ∅ (∪)). Qed.

Lemma size_value_gset_3 (a b c : value) :
  a ≠ b → a ≠ c → b ≠ c → size ({[a; b; c]} : gset value) = 3%nat.
Proof.
  intros Hab Hac Hbc.
  rewrite !size_union, !size_singleton; [reflexivity| |].
  - apply disjoint_singleton_l. by rewrite elem_of_singleton.
  - apply disjoint_singleton_r.
    rewrite elem_of_union, !elem_of_singleton. intros [?|?]; congruence.
Qed.

Lemma deps_of_single (name : string) (target : Z) :
  VStr name ≠ VStr "CNOT" → VStr name ≠ VStr "Tof" →
  deps_of {[ "name" := VStr name; "target" := VInt target ]}
  = inr {[VInt target]}.
Proof.
  intros Hc Ht. unfold deps_of.
  replace (getitem _ "name") with (inr (VStr name) : result value)
    by reflexivity.
  cbn [mbind result_bind].
  destruct (decide (VStr name = VStr "CNOT")) as [?|_]; [done|].
  destruct (decide (VStr name = VStr "Tof")) as [?|_]; [done|].
  replace (getitem _ "target") with (inr (VInt target) : result value)
    by reflexivity.
  cbn [mbind result_bind mret result_ret]. by rewrite gset_add_1.
Qed.

(** C8: [deps_of] reads only the record: a CNOT record gives
    {control, target}; a Toffoli record on pairwise distinct qubits gives the
    3-element set {control1, control2, target}; each single-qubit record (X,
    Hadamard, S, T, Tdg) gives the 1-element set {target}; a record gives the
    same set at whatever positions of whatever gate sequences it stands. *)
Theorem deps_of_by_kind (c1 c2 t : Z) :
  c1 ≠ c2 → c1 ≠ t → c2 ≠ t →
  (∀ control target : Z,
     deps_of (CNOT_gate control target)
     = inr {[VInt control; VInt target]})
  ∧ (deps_of (Tof_gate c1 c2 t) = inr {[VInt c1; VInt c2; VInt t]}
     ∧ size ({[VInt c1; VInt c2; VInt t]} : gset value) = 3%nat)
  ∧ (∀ (target : Z) (g : gate),
       g ∈ [X_gate target; HAD_gate target; S_gate target; T_gate target;
            Tdg_gate target] →
       deps_of g = inr {[VInt target]}
       ∧ size ({[VInt target]} : gset value) = 1%nat)
  ∧ (∀ (gs gs' : list gate) (i j : nat) (g g' : gate),
       gs !! i = Some g → gs' !! j = Some g' → g = g' →
       deps_of g = deps_of g').
Proof.
  intros H12 H1t H2t.
  split; [|split; [split|split]].
  - intros control target. unfold deps_of.
    replace (getitem _ "name") with (inr (VStr "CNOT") : result value)
      by reflexivity.
    cbn [mbind result_bind]. rewrite decide_True by reflexivity.
    replace (getitem _ "ctrl") with (inr (VInt control) : result value)
      by reflexivity.
    replace (getitem _ "target") with (inr (VInt target) : result value)
      by reflexivity.
    cbn [mbind result_bind mret result_ret]. by rewrite gset_add_1.
  - unfold deps_of.
    replace (getitem _ "name") with (inr (VStr "Tof") : result value)
      by reflexivity.
    cbn [mbind result_bind].
    rewrite decide_False by discriminate. rewrite decide_True by reflexivity.
    replace (getitem _ "ctrl1") with (inr (VInt c1) : result value)
      by reflexivity.
    replace (getitem _ "ctrl2") with (inr (VInt c2) : result value)
      by reflexivity.
    replace (getitem _ "target") with (inr (VInt t) : result value)
      by reflexivity.
    cbn [mbind result_bind mret result_ret]. by rewrite gset_add_1.
  - apply size_value_gset_3; congruence.
  - intros target g Hg. split; [|apply size_singleton].
    rewrite !elem_of_cons, elem_of_nil in Hg.
    destruct Hg as [->|[->|[->|[->|[->|[]]]]]];
      by apply deps_of_single.
  - intros gs gs' i j g g' _ _ ->. reflexivity.
Qed.

Lemma deps_of_by_kind_witness :
  deps_of (Tof_gate 0 1 2) = inr {[VInt 0; VInt 1; VInt 2]}
  ∧ size ({[VInt 0; VInt 1; VInt 2]} : gset value) = 3%nat.
Proof.
  assert (H : (0 ≠ 1) ∧ (0 ≠ 2) ∧ (1 ≠ 2)) by lia.
  destruct H as (H01 & H02 & H12).
  exact (proj1 (proj2 (deps_of_by_kind 0 1 2 H01 H02 H12))).
Defined.

(** ** Strings *)

Lemma append_cons (x : ascii) (a b : string) :
  String x a +:+ b = String x (a +:+ b).
Proof. reflexivity. Qed.

Lemma append_assoc (a b c : string) : (a +:+ b) +:+ c = a +:+ (b +:+ c).
Proof.
  induction a as [|x a IH]; [reflexivity|].
  change (String x ((a +:+ b) +:+ c) = String x (a +:+ (b +:+ c))).
  by rewrite IH.
Qed.

Lemma append_nil_r (a : string) : a +:+ "" = a.
Proof.
  induction a as [|x a IH]; [reflexivity|].
  change (String x (a +:+ "") = String x a). by rewrite IH.
Qed.

Lemma str_forall_app (p : ascii → bool) (a b : string) :
  str_forall p (a +:+ b) = str_forall p a && str_forall p b.
Proof.
  induction a as [|x a IH]; [reflexivity|].
  change (p x && str_forall p (a +:+ b)
          = p x && str_forall p a && str_forall p b).
  by rewrite IH, andb_assoc.
Qed.

Lemma str_forall_pretty_N_go (p : ascii → bool) (x : N) (s : string) :
  (∀ d : N, p (pretty_N_char d) = true) →
  str_forall p s = true → str_forall p (pretty_N_go x s) = true.
Proof.
  intros Hp. revert s.
  induction (N.lt_wf_0 x) as [x _ IH]; intros s Hs.
  destruct (decide (x = 0)%N) as [->|Hx]; [by rewrite pretty_N_go_0|].
  rewrite pretty_N_go_step by lia.
  apply IH; [apply N.div_lt; lia|].
  cbn [str_forall]. by rewrite Hp, Hs.
Qed.

Lemma str_forall_pretty_Z (p : ascii → bool) (z : Z) :
  (∀ d : N, p (pretty_N_char d) = true) → p "-"%char = true →
  str_forall p (pretty z) = true.
Proof.
  intros Hp Hm.
  assert (H0 : str_forall p "0" = true).
  { change (p (pretty_N_char 0) && true = true). by rewrite Hp. }
  assert (Hpos : ∀ q : positive, str_forall p (pretty q) = true).
  { intros q. unfold pretty, pretty_positive, pretty, pretty_N.
    case_decide; [done|]. by apply str_forall_pretty_N_go. }
  destruct z as [|q|q]; unfold pretty, pretty_Z; [done|apply Hpos|].
  rewrite str_forall_app, Hpos. cbn [str_forall]. by rewrite Hm.
Qed.

Lemma no_break_digit (d : N) : no_break (pretty_N_char d) = true.
Proof. unfold pretty_N_char. by repeat case_match. Qed.

Lemma no_break_pretty (z : Z) : str_forall no_break (pretty z) = true.
Proof. apply str_forall_pretty_Z; [apply no_break_digit|reflexivity]. Qed.

Lemma splitlines_go_line (l rest : string) (cur : option string) :
  str_forall no_break l = true →
  PyStr.splitlines_go cur (l +:+ PyStr.nl +:+ rest)
  = (default "" cur +:+ l) :: PyStr.splitlines_go None rest.
Proof.
  revert cur. induction l as [|c l IH]; intros cur Hl.
  - rewrite append_nil_r. change ("" +:+ PyStr.nl +:+ rest) with
      (String "010" rest). cbn. by destruct rest.
  - cbn in Hl. apply andb_true_iff in Hl as [Hc Hl].
    rewrite append_cons. cbn [PyStr.splitlines_go].
    unfold no_break in Hc. apply negb_true_iff in Hc. rewrite Hc.
    rewrite IH by done. cbn [default]. unfold PyStr.snoc.
    unfold id. rewrite append_assoc. reflexivity.
Qed.

Lemma splitlines_unlines (ls : list string) :
  Forall (λ l, str_forall no_break l = true) ls →
  PyStr.splitlines (unlines ls) = ls.
Proof.
  unfold PyStr.splitlines.
  induction 1 as [|l ls Hl _ IH]; [reflexivity|].
  cbn [unlines]. rewrite splitlines_go_line by done.
  cbn [default]. change ("" +:+ l) with l. by rewrite IH.
Qed.

(** ** Export *)

Lemma unlines_app (ls ls' : list string) :
  unlines (ls ++ ls') = unlines ls +:+ unlines ls'.
Proof.
  induction ls as [|l ls IH]; [reflexivity|].
  cbn [app unlines]. by rewrite IH, !append_assoc.
Qed.

Lemma to_qasm_header_unlines (c : QuantumCircuit.t) :
  to_qasm_header c = unlines (header_lines (n_qubits c)).
Proof.
  unfold to_qasm_header, header_lines. cbn [unlines].
  rewrite !append_assoc, ?append_nil_r. reflexivity.
Qed.

Lemma to_qasm_gate_record (qasm_str : string) (k : kind) :
  to_qasm_gate qasm_str (record k)
  = inr (qasm_str +:+ (qasm_line k +:+ PyStr.nl)).
Proof.
  destruct k; cbn [record qasm_line]; rewrite !append_assoc; reflexivity.
Qed.

Lemma to_qasm_loop_records (qasm_str : string) (ks : list kind) :
  to_qasm_loop qasm_str (record <$> ks)
  = inr (qasm_str +:+ unlines (qasm_line <$> ks)).
Proof.
  revert qasm_str. induction ks as [|k ks IH]; intros qasm_str.
  - cbn. by rewrite append_nil_r.
  - cbn [fmap list_fmap to_qasm_loop unlines].
    rewrite to_qasm_gate_record. cbn [mbind result_bind].
    change (list_fmap _ _ record ks) with (record <$> ks).
    rewrite IH. change (list_fmap _ _ qasm_line ks) with (qasm_line <$> ks).
    by rewrite !append_assoc.
Qed.

Lemma no_break_lines (qubit_count : Z) (ks : list kind) :
  Forall (λ l, str_forall no_break l = true)
         (header_lines qubit_count ++ (qasm_line <$> ks)).
Proof.
  apply Forall_app. split.
  - unfold header_lines. repeat constructor.
    rewrite !str_forall_app, no_break_pretty. reflexivity.
  - apply Forall_fmap, Forall_forall. intros k _.
    destruct k; cbn [qasm_line compose];
      rewrite !str_forall_app, !no_break_pretty; reflexivity.
Qed.

(** C5: without the optimizer the export of a circuit of recognized records
    is the three header lines (version, include directive, register of
    [n_qubits] qubits) followed by one line per record, in sequence order, in
    the per-kind line forms; the circuit built by allocating 3 qubits and
    calling [add_toffoli(0, 1, 2)] exports to the four lines of the
    end-to-end example. *)
Theorem to_qasm_header_and_lines (zx_optimize : string → result string)
    (qubit_count : Z) (ks : list kind) :
  (∃ qasm_str,
     to_qasm zx_optimize false (mk qubit_count (record <$> ks)) = inr qasm_str
     ∧ qasm_str = unlines (header_lines qubit_count ++ (qasm_line <$> ks))
     ∧ PyStr.splitlines qasm_str
       = header_lines qubit_count ++ (qasm_line <$> ks))
  ∧ (∃ c qasm_str,
       (request_qubits 3 ;; add_toffoli 0 1 2 false false false) init
         = (inr tt, c)
       ∧ c = mk 3 [Tof_gate 0 1 2]
       ∧ to_qasm zx_optimize false c = inr qasm_str
       ∧ PyStr.splitlines qasm_str
         = [ "OPENQASM 2.0;";
             "include " +:+ PyStr.dquote +:+ "qelib1.inc" +:+ PyStr.dquote
               +:+ ";";
             "qreg q[3];";
             "ccx q[0], q[1], q[2];" ]).
Proof.
  split.
  - eexists. split; [|split; [reflexivity|]].
    + unfold to_qasm. cbn [gates].
      rewrite to_qasm_loop_records, to_qasm_header_unlines.
      cbn [mbind result_bind n_qubits mret result_ret].
      by rewrite <- unlines_app.
    + apply splitlines_unlines, no_break_lines.
  - eexists _, _. split; [|split; [reflexivity|split]].
    + vm_compute. reflexivity.
    + vm_compute. reflexivity.
    + vm_compute. reflexivity.
Qed.

(** ** Export followed by import *)

Lemma to_qasm_records (zx_optimize : string → result string)
    (qubit_count : Z) (ks : list kind) :
  to_qasm zx_optimize false (mk qubit_count (record <$> ks))
  = inr (unlines (header_lines qubit_count ++ (qasm_line <$> ks))).
Proof.
  unfold to_qasm. cbn [gates].
  rewrite to_qasm_loop_records, to_qasm_header_unlines.
  cbn [mbind result_bind n_qubits mret result_ret].
  by rewrite <- unlines_app.
Qed.

(** C2, on the 1-qubit circuits with the single record X(0) and with the
    single record Tdg(0): each exports, without the optimizer, to a text of
    3 + 1 lines, and importing the text should give the circuit back.  The
    parser names the gate of an [x] line NOT and the gate of a [tdg] line T.
    On such a parse of the first text the import raises
    [NotImplementedError], its dispatch testing the name X; on such a parse
    of the second it returns a circuit with a T record where the Tdg record
    was. *)
Theorem from_qasm_misses_parser_names
    (zx_optimize : string → result string)
    (zx_from_qasm : string → result zx_circuit)
    (x_text tdg_text : string) (x_parsed tdg_parsed : zx_gate) :
  to_qasm zx_optimize false (mk 1 [X_gate 0]) = inr x_text →
  to_qasm zx_optimize false (mk 1 [Tdg_gate 0]) = inr tdg_text →
  zx_from_qasm x_text = inr (mk_zx_circuit 1 [x_parsed]) →
  zx_name x_parsed = "NOT" →
  zx_from_qasm tdg_text = inr (mk_zx_circuit 1 [tdg_parsed]) →
  zx_name tdg_parsed = "T" →
  zx_attrs tdg_parsed !! "target" = Some 0 →
  length (PyStr.splitlines x_text) = (3 + 1)%nat
  ∧ length (PyStr.splitlines tdg_text) = (3 + 1)%nat
  ∧ from_qasm zx_from_qasm x_text = inl NotImplementedError
  ∧ from_qasm zx_from_qasm tdg_text = inr (mk 1 [T_gate 0])
  ∧ mk 1 [T_gate 0] ≠ mk 1 [Tdg_gate 0].
Proof.
  intros Hx Ht Hpx Hnx Hpt Hnt Hat.
  change [X_gate 0] with (record <$> [KX 0]) in Hx.
  change [Tdg_gate 0] with (record <$> [KTdg 0]) in Ht.
  rewrite to_qasm_records in Hx, Ht.
  assert (Hxt : x_text = unlines (header_lines 1 ++ (qasm_line <$> [KX 0])))
    by congruence.
  assert (Htt : tdg_text
                = unlines (header_lines 1 ++ (qasm_line <$> [KTdg 0])))
    by congruence.
  split; [|split; [|split; [|split]]].
  - rewrite Hxt, splitlines_unlines by apply no_break_lines. reflexivity.
  - rewrite Htt, splitlines_unlines by apply no_break_lines. reflexivity.
  - unfold from_qasm. rewrite Hpx. destruct x_parsed as [name attrs].
    cbn [zx_name] in Hnx. subst name. reflexivity.
  - unfold from_qasm. rewrite Hpt. destruct tdg_parsed as [name attrs].
    cbn [zx_name zx_attrs] in Hnt, Hat. subst name.
    cbn [mbind result_bind zx_qubits zx_gates from_qasm_loop].
    unfold mbind, M_bind, from_qasm_gate, getattr. cbn [zx_name zx_attrs].
    rewrite Hat. reflexivity.
  - intros Heq.
    apply (f_equal (λ c, (λ g : gate, g !! "name") <$> gates c)) in Heq.
    vm_compute in Heq. discriminate Heq.
Qed.

Lemma from_qasm_misses_parser_names_witness :
  let x_text := unlines (header_lines 1 ++ (qasm_line <$> [KX 0])) in
  let tdg_text := unlines (header_lines 1 ++ (qasm_line <$> [KTdg 0])) in
  let zx_from_qasm : string → result zx_circuit :=
    λ qasm,
      if decide (qasm = x_text)
      then inr (mk_zx_circuit 1 [mk_zx_gate "NOT" {[ "target" := 0 ]}])
      else inr (mk_zx_circuit 1 [mk_zx_gate "T" {[ "target" := 0 ]}]) in
  length (PyStr.splitlines x_text) = (3 + 1)%nat
  ∧ length (PyStr.splitlines tdg_text) = (3 + 1)%nat
  ∧ from_qasm zx_from_qasm x_text = inl NotImplementedError
  ∧ from_qasm zx_from_qasm tdg_text = inr (mk 1 [T_gate 0])
  ∧ mk 1 [T_gate 0] ≠ mk 1 [Tdg_gate 0].
Proof.
  intros x_text tdg_text zx_from_qasm.
  apply (from_qasm_misses_parser_names (λ s, inr s) zx_from_qasm
           x_text tdg_text
           (mk_zx_gate "NOT" {[ "target" := 0 ]})
           (mk_zx_gate "T" {[ "target" := 0 ]}));
    vm_compute; reflexivity.
Defined.

(** ** The logic-network front end *)

(** C9: the line [assign y = a | b;] is parsed, the De Morgan rewrite being
    on (the default of [from_assignment], which [from_verilog] uses), into a
    single AND record with inputs a, b, output y and data p1, p2, p3 all
    true; the line [assign y = a & b;] into a single AND record with inputs
    a, b, output y and data p1, p2, p3 all false.  [from_assignment] gives
    the same records for the assignments [y = a | b] and [y = a & b] that
    [from_verilog] hands to it. *)
Theorem from_assignment_and_or_examples :
  (∃ ntk h g,
     LogicNetwork.from_verilog "assign y = a | b;" LogicGate.initial_heap
       = (inr ntk, h)
     ∧ LogicNetwork.gates ntk = {[ "y" := g ]}
     ∧ LogicGate.from_assignment "y = a | b" true LogicGate.initial_heap
       = (inr g, h)
     ∧ LogicGate.is_and g = true
     ∧ LogicGate.gate_type g = "&"
     ∧ LogicGate.inputs g = ["a"; "b"]
     ∧ LogicGate.output g = "y"
     ∧ h !! LogicGate.data g
       = Some {[ "p1" := true; "p2" := true; "p3" := true ]})
  ∧ (∃ ntk h g,
       LogicNetwork.from_verilog "assign y = a & b;" LogicGate.initial_heap
         = (inr ntk, h)
       ∧ LogicNetwork.gates ntk = {[ "y" := g ]}
       ∧ LogicGate.from_assignment "y = a & b" true LogicGate.initial_heap
         = (inr g, h)
       ∧ LogicGate.is_and g = true
       ∧ LogicGate.gate_type g = "&"
       ∧ LogicGate.inputs g = ["a"; "b"]
       ∧ LogicGate.output g = "y"
       ∧ h !! LogicGate.data g
         = Some {[ "p1" := false; "p2" := false; "p3" := false ]}).
Proof.
  split.
  - eexists _, _, _. split; [vm_compute; reflexivity|].
    repeat split; vm_compute; reflexivity.
  - eexists _, _, _. split; [vm_compute; reflexivity|].
    repeat split; vm_compute; reflexivity.
Qed.

(** C10, on two records made without explicit data: [LogicGate("=", ["a"],
    "y")] and [LogicGate("=", ["b"], "z")], which are also what
    [from_assignment] returns for [y = a] and [z = b].  Both hold the one
    default dictionary object, so an entry stored through the first record
    shows in the data of the second, which was empty before. *)
Theorem default_data_shared_between_gates :
  let g1 := LogicGate.init "=" ["a"] "y" None in
  let g2 := LogicGate.init "=" ["b"] "z" None in
  let h := LogicGate.initial_heap in
  LogicGate.from_assignment "y = a" true h = (inr g1, h)
  ∧ LogicGate.from_assignment "z = b" true h = (inr g2, h)
  ∧ LogicGate.data g1 = LogicGate.data g2
  ∧ LogicGate.dict_read (LogicGate.data g2) h = (inr ∅, h)
  ∧ (LogicGate.dict_setitem (LogicGate.data g1) "p1" true ;;
     LogicGate.dict_read (LogicGate.data g2)) h
    = (inr {[ "p1" := true ]}, [ {[ "p1" := true ]} ]).
Proof. repeat split; vm_compute; reflexivity. Qed.

(** ** Further properties of the circuit builder *)

Lemma size_list_to_set_le (l : list Z) :
  (size (list_to_set l : gset Z) ≤ length l)%nat.
Proof.
  induction l as [|x l IH].
  { cbn [list_to_set foldr length]. by rewrite size_empty. }
  cbn [list_to_set foldr length].
  rewrite size_union_alt, size_singleton.
  assert (Hle : (size ((list_to_set l : gset Z) ∖ {[x]})
                 ≤ size (list_to_set l : gset Z))%nat).
  { apply subseteq_size, subseteq_difference_l. reflexivity. }
  lia.
Qed.

(** [is_unique] holds exactly of the lists without a repeated element. *)
Theorem is_unique_iff_NoDup (lst : list Z) :
  is_unique lst = true ↔ NoDup lst.
Proof.
  unfold is_unique. rewrite Nat.eqb_eq. split.
  - induction lst as [|x l IH]; [constructor|].
    cbn [list_to_set foldr length]. intros Hsz.
    destruct (decide (x ∈ l)) as [Hin|Hnotin].
    + assert (Heq : ({[x]} ∪ list_to_set l : gset Z) = list_to_set l).
      { apply subseteq_union_1_L. intros y Hy%elem_of_singleton.
        subst y. by apply elem_of_list_to_set. }
      rewrite Heq in Hsz. pose proof (size_list_to_set_le l). lia.
    + rewrite size_union, size_singleton in Hsz.
      * constructor; [done|]. apply IH. lia.
      * apply disjoint_singleton_l. by rewrite elem_of_list_to_set.
  - intros Hnd. symmetry. by apply size_list_to_set.
Qed.

Lemma request_qubits_loop_indices (k : nat) (c : QuantumCircuit.t) :
  request_qubits_loop k c
  = (inr ((λ i : nat, n_qubits c + Z.of_nat i) <$> seq 0 k),
     mk (n_qubits c + Z.of_nat k) (gates c)).
Proof.
  revert c. induction k as [|k IH]; intros c.
  - destruct c as [q gs]. cbn. by rewrite Z.add_0_r.
  - cbn [request_qubits_loop]. unfold mbind, M_bind, request_qubit.
    cbn [n_qubits gates]. rewrite IH. cbn [n_qubits gates].
    unfold mret, M_ret. f_equal; [f_equal|f_equal; lia].
    cbn [seq fmap list_fmap]. f_equal; [lia|].
    rewrite <- fmap_S_seq, <- list_fmap_compose.
    apply list_fmap_ext. intros _ i _. cbn. lia.
Qed.

(** The outcome of [request_qubits] on any circuit. *)
Lemma request_qubits_run (n : Z) (c : QuantumCircuit.t) :
  request_qubits n c
  = (inr ((λ i : nat, n_qubits c + Z.of_nat i) <$> seq 0 (Z.to_nat n)),
     mk (n_qubits c + Z.max 0 n) (gates c)).
Proof.
  unfold request_qubits. rewrite request_qubits_loop_indices.
  do 2 f_equal. lia.
Qed.

(** [request_qubits(n)] returns the next [n] indices in increasing order,
    starting at the qubit count before the call, raises nothing, adds
    [max(0, n)] to the qubit count and leaves the gate list alone. *)
Theorem request_qubits_consecutive (n : Z) (c : QuantumCircuit.t) :
  request_qubits n c
  = (inr ((λ i : nat, n_qubits c + Z.of_nat i) <$> seq 0 (Z.to_nat n)),
     mk (n_qubits c + Z.max 0 n) (gates c)).
Proof. apply request_qubits_run. Qed.

(** For pairwise distinct qubits [add_toffoli] succeeds for every setting of
    p1, p2 and clean: it keeps the qubit count and the records already there,
    appends 13 records (clean) or 1 (not clean) plus two X records per
    negated control, and raises the T-count by 4 (clean) or 0. *)
Theorem add_toffoli_gate_and_t_counts (c1 c2 target : Z) (p1 p2 clean : bool)
    (c : QuantumCircuit.t) (n : Z) :
  c1 ≠ c2 → c1 ≠ target → c2 ≠ target →
  num_t c = inr n →
  ∃ appended,
    add_toffoli c1 c2 target p1 p2 clean c
      = (inr tt, mk (n_qubits c) (gates c ++ appended))
    ∧ length appended
      = ((if clean then 13 else 1) + 2 * (Nat.b2n p1 + Nat.b2n p2))%nat
    ∧ num_t (mk (n_qubits c) (gates c ++ appended))
      = inr (n + if clean then 4 else 0).
Proof.
  intros H12 H1t H2t Hn.
  assert (Hu : is_unique [c1; c2; target] = true) by (by apply is_unique_3).
  destruct p1, p2, clean;
    (eexists; split; [|split];
     [ run_builder; rewrite Hu; rewrite <- ?app_assoc; reflexivity
     | reflexivity
     | unfold num_t; cbn [gates]; apply num_t_gates_app;
       [exact Hn|vm_compute; reflexivity] ]).
Qed.

Lemma add_toffoli_gate_and_t_counts_witness :
  ∃ appended,
    add_toffoli 0 1 2 true true true (mk 3 [Tdg_gate 1])
      = (inr tt, mk 3 ([Tdg_gate 1] ++ appended))
    ∧ length appended = (13 + 2 * (1 + 1))%nat
    ∧ num_t (mk 3 ([Tdg_gate 1] ++ appended)) = inr (1 + 4).
Proof.
  apply (add_toffoli_gate_and_t_counts 0 1 2 true true true
           (mk 3 [Tdg_gate 1]) 1); [lia|lia|lia|vm_compute; reflexivity].
Defined.

Lemma add_toffoli_unique_succeeds (c1 c2 target : Z) (p1 p2 clean : bool)
    (c : QuantumCircuit.t) :
  is_unique [c1; c2; target] = true →
  ∃ appended,
    add_toffoli c1 c2 target p1 p2 clean c
    = (inr tt, mk (n_qubits c) (gates c ++ appended)).
Proof.
  intros Hu.
  destruct p1, p2, clean;
    (eexists; run_builder; rewrite Hu; rewrite <- ?app_assoc; reflexivity).
Qed.

(** What a raising call of [add_toffoli] implies. *)
Lemma add_toffoli_failure (c1 c2 target : Z) (p1 p2 clean : bool)
    (c c' : QuantumCircuit.t) (e : exn) :
  add_toffoli c1 c2 target p1 p2 clean c = (inl e, c') →
  c' = c ∧ e = AssertionError
  ∧ (c1 = c2 ∨ c1 = target ∨ c2 = target).
Proof.
  intros Hrun.
  destruct (is_unique [c1; c2; target]) eqn:Hu.
  - destruct (add_toffoli_unique_succeeds c1 c2 target p1 p2 clean c Hu)
      as [appended Hok].
    rewrite Hok in Hrun. discriminate.
  - assert (Hdup : c1 = c2 ∨ c1 = target ∨ c2 = target).
    { destruct (decide (c1 = c2)); [tauto|].
      destruct (decide (c1 = target)); [tauto|].
      destruct (decide (c2 = target)); [tauto|].
      assert (is_unique [c1; c2; target] = true) by (by apply is_unique_3).
      congruence. }
    revert Hrun. run_builder. rewrite Hu. intros [= <- <-]. done.
Qed.

(** A call of [add_toffoli] that raises has changed nothing: the only
    exception is the assertion error of the uniqueness check, it is raised
    only for qubits that are not pairwise distinct, and the circuit after
    the call is the circuit before it. *)
Theorem add_toffoli_failure_atomic (c1 c2 target : Z) (p1 p2 clean : bool)
    (c c' : QuantumCircuit.t) (e : exn) :
  add_toffoli c1 c2 target p1 p2 clean c = (inl e, c') →
  c' = c ∧ e = AssertionError
  ∧ (c1 = c2 ∨ c1 = target ∨ c2 = target).
Proof. apply add_toffoli_failure. Qed.

Lemma add_toffoli_failure_atomic_witness :
  mk 2 [X_gate 1] = mk 2 [X_gate 1] ∧ AssertionError = AssertionError
  ∧ (0 = 1 ∨ 0 = 0 ∨ 1 = 0).
Proof.
  apply (add_toffoli_failure_atomic 0 1 0 true true false
           (mk 2 [X_gate 1]) (mk 2 [X_gate 1]) AssertionError).
  vm_compute. reflexivity.
Defined.

(** A call of [add_mcx] that raises has changed nothing either.  It raises
    the assertion error for more than two controls and for two controls that
    are not distinct from each other and from the target, and the index
    error when the polarities list is shorter than the controls list; the
    polarities are read before [add_toffoli] checks the qubits. *)
Theorem add_mcx_failure_atomic (cs : list Z) (target : Z) (ps : list bool)
    (clean : bool) (c c' : QuantumCircuit.t) (e : exn) :
  add_mcx cs target ps clean c = (inl e, c') →
  c' = c
  ∧ ((e = AssertionError
      ∧ ((2 < length cs)%nat
         ∨ ∃ a b, cs = [a; b] ∧ (length ps ≥ 2)%nat
                  ∧ (a = b ∨ a = target ∨ b = target)))
     ∨ (e = IndexError ∧ (length ps < length cs ≤ 2)%nat)).
Proof.
  intros Hrun.
  destruct cs as [|a [|b [|x cs]]].
  - discriminate Hrun.
  - destruct ps as [|p ps].
    + injection Hrun as <- <-. split; [done|]. right. cbn. split; [done|lia].
    + rewrite add_mcx_one_control, add_cnot_gates in Hrun. discriminate.
  - destruct ps as [|p1 [|p2 ps]].
    + injection Hrun as <- <-. split; [done|]. right. cbn. split; [done|lia].
    + injection Hrun as <- <-. split; [done|]. right. cbn. split; [done|lia].
    + rewrite add_mcx_two_controls in Hrun.
      apply add_toffoli_failure in Hrun as (-> & -> & Hdup).
      split; [done|]. left. split; [done|]. right.
      exists a, b. cbn. split; [done|]. split; [lia|done].
  - injection Hrun as <- <-. split; [done|]. left. split; [done|].
    left. cbn. lia.
Qed.

Lemma add_mcx_failure_atomic_witness :
  init = init
  ∧ ((IndexError = AssertionError
      ∧ ((2 < length [0; 1])%nat
         ∨ ∃ a b, [0; 1] = [a; b] ∧ (length [true] ≥ 2)%nat
                  ∧ (a = b ∨ a = 1 ∨ b = 1)))
     ∨ (IndexError = IndexError ∧ (length [true] < length [0; 1] ≤ 2)%nat)).
Proof.
  apply (add_mcx_failure_atomic [0; 1] 1 [true] false init init IndexError).
  vm_compute. reflexivity.
Defined.

(** A call of [add_mcx] that returns has at most two controls, keeps the
    qubit count and the records already there, and appends at most 17
    records; with no control at all it appends nothing. *)
Theorem add_mcx_success_appends (cs : list Z) (target : Z) (ps : list bool)
    (clean : bool) (c c' : QuantumCircuit.t) :
  add_mcx cs target ps clean c = (inr tt, c') →
  (length cs ≤ 2)%nat
  ∧ ∃ appended,
      c' = mk (n_qubits c) (gates c ++ appended)
      ∧ (length appended ≤ 17)%nat
      ∧ (cs = [] → appended = []).
Proof.
  intros Hrun.
  destruct cs as [|a [|b [|x cs]]].
  - injection Hrun as <-. split; [cbn; lia|]. exists [].
    destruct c as [q gs]. cbn [n_qubits gates]. rewrite app_nil_r.
    split; [done|]. split; [cbn; lia|done].
  - destruct ps as [|p ps]; [discriminate|].
    rewrite add_mcx_one_control, add_cnot_gates in Hrun.
    injection Hrun as <-. split; [cbn; lia|].
    eexists. split; [reflexivity|]. split; [destruct p; cbn; lia|done].
  - destruct ps as [|p1 [|p2 ps]]; [discriminate..|].
    rewrite add_mcx_two_controls in Hrun.
    destruct (is_unique [a; b; target]) eqn:Hu.
    + pose proof Hu as Hd. apply is_unique_3 in Hd as (H1 & H2 & H3).
      assert (Hex : ∃ appended,
        add_toffoli a b target p1 p2 clean c
          = (inr tt, mk (n_qubits c) (gates c ++ appended))
        ∧ (length appended ≤ 17)%nat).
      { destruct p1, p2, clean;
          (eexists; split;
           [run_builder; rewrite Hu; rewrite <- ?app_assoc; reflexivity
           |cbn; lia]). }
      destruct Hex as (appended & Hok & Hlen).
      rewrite Hok in Hrun. injection Hrun as <-.
      split; [cbn; lia|]. exists appended. done.
    + revert Hrun. run_builder. rewrite Hu. discriminate.
  - discriminate.
Qed.

Lemma add_mcx_success_appends_witness :
  (length [0; 1] ≤ 2)%nat
  ∧ ∃ appended,
      mk 3 [X_gate 0; Tof_gate 0 1 2; X_gate 0]
      = mk (n_qubits (mk 3 [])) (gates (mk 3 []) ++ appended)
      ∧ (length appended ≤ 17)%nat
      ∧ ([0; 1] = [] → appended = []).
Proof.
  apply (add_mcx_success_appends [0; 1] 2 [true; false] false (mk 3 [])).
  vm_compute. reflexivity.
Defined.

(** ** Further properties of the dependency analysis and of the export *)

Lemma size_set_add_bounds (x : value) (deps : gset value) :
  (1 ≤ size (set_add x deps) ≤ size deps + 1)%nat.
Proof.
  unfold set_add. split.
  - assert (Hsub : ({[x]} : gset value) ⊆ deps ∪ {[x]})
      by apply union_subseteq_r.
    apply subseteq_size in Hsub. by rewrite size_singleton in Hsub.
  - rewrite size_union_alt.
    assert (Hle : (size (({[x]} : gset value) ∖ deps)
                   ≤ size ({[x]} : gset value))%nat).
    { apply subseteq_size, subseteq_difference_l. reflexivity. }
    rewrite size_singleton in Hle. lia.
Qed.

(** Every record that the export can write has its dependencies defined:
    when the loop body of [to_qasm] accepts a record, [deps_of] returns for
    it a set of at least one and at most three qubits. *)
Theorem deps_of_defined_on_exported (g : gate) (qasm_str qasm_str' : string) :
  to_qasm_gate qasm_str g = inr qasm_str' →
  ∃ deps, deps_of g = inr deps ∧ (1 ≤ size deps ≤ 3)%nat.
Proof.
  unfold to_qasm_gate, deps_of, getitem.
  destruct (g !! "name") as [name|]; [|discriminate].
  cbn [mbind result_bind].
  pose proof (size_empty (C:=gset value)) as H0.
  destruct (decide (name = VStr "Tof")) as [->|HnT].
  - rewrite decide_False by discriminate.
    destruct (g !! "ctrl1") as [a|]; [|discriminate].
    destruct (g !! "ctrl2") as [b|]; [|discriminate].
    destruct (g !! "target") as [t|]; [|discriminate].
    intros _. cbn [mbind result_bind mret result_ret].
    eexists. split; [reflexivity|].
    pose proof (size_set_add_bounds a ∅).
    pose proof (size_set_add_bounds b (set_add a ∅)).
    pose proof (size_set_add_bounds t (set_add b (set_add a ∅))).
    lia.
  - destruct (decide (name = VStr "CNOT")) as [->|HnC].
    + destruct (g !! "ctrl") as [a|]; [|discriminate].
      destruct (g !! "target") as [t|]; [|discriminate].
      intros _. cbn [mbind result_bind mret result_ret].
      eexists. split; [reflexivity|].
      pose proof (size_set_add_bounds a ∅).
      pose proof (size_set_add_bounds t (set_add a ∅)).
      lia.
    + intros Hline.
      assert (Ht : ∃ t, g !! "target" = Some t).
      { destruct (g !! "target") as [t|]; [by exists t|].
        repeat (case_decide; [discriminate|]). discriminate. }
      destruct Ht as [t ->]. cbn [mbind result_bind mret result_ret].
      eexists. split; [reflexivity|].
      pose proof (size_set_add_bounds t ∅). lia.
Qed.

Lemma deps_of_defined_on_exported_witness :
  ∃ deps, deps_of (CNOT_gate 4 4) = inr deps ∧ (1 ≤ size deps ≤ 3)%nat.
Proof.
  apply (deps_of_defined_on_exported (CNOT_gate 4 4) ""
           ("cx q[4], q[4];" +:+ PyStr.nl)).
  vm_compute. reflexivity.
Defined.

Lemma to_qasm_loop_app (qasm_str : string) (gs gs' : list gate) :
  to_qasm_loop qasm_str (gs ++ gs')
  = (qasm_str' ← to_qasm_loop qasm_str gs ; to_qasm_loop qasm_str' gs').
Proof.
  revert qasm_str. induction gs as [|g gs IH]; intros qasm_str.
  - reflexivity.
  - cbn [app to_qasm_loop].
    destruct (to_qasm_gate qasm_str g) as [e|s]; [reflexivity|].
    cbn [mbind result_bind]. apply IH.
Qed.

(** The export refuses a circuit at the first record it does not know,
    whether the optimizer is asked for or not: after records of the seven
    kinds, a record without a ["name"] raises [KeyError] and a record whose
    name is none of the seven raises [NotImplementedError], whatever
    follows it. *)
Theorem to_qasm_rejects_unknown_record
    (zx_optimize : string → result string) (run_zx : bool)
    (qubit_count : Z) (ks : list kind) (g : gate) (rest : list gate) :
  (∀ name, g !! "name" = Some name → name ∉ qasm_names) →
  to_qasm zx_optimize run_zx (mk qubit_count ((record <$> ks) ++ g :: rest))
  = inl (match g !! "name" with
         | Some _ => NotImplementedError
         | None => KeyError
         end).
Proof.
  intros Hname. unfold to_qasm. cbn [gates].
  rewrite to_qasm_loop_app, to_qasm_loop_records.
  cbn [mbind result_bind to_qasm_loop].
  unfold to_qasm_gate, getitem.
  destruct (g !! "name") as [name|]; [|reflexivity].
  specialize (Hname name eq_refl). unfold qasm_names in Hname.
  rewrite !not_elem_of_cons in Hname.
  destruct Hname as (H1 & H2 & H3 & H4 & H5 & H6 & H7 & _).
  cbn [mbind result_bind].
  rewrite !decide_False by done. reflexivity.
Qed.

Lemma to_qasm_rejects_unknown_record_witness :
  to_qasm (λ s, inr s) true
    (mk 2 ((record <$> [KX 0]) ++ {[ "name" := VStr "CZ" ]} :: [X_gate 1]))
  = inl (match ({[ "name" := VStr "CZ" ]} : gate) !! "name" with
         | Some _ => NotImplementedError
         | None => KeyError
         end).
Proof.
  apply to_qasm_rejects_unknown_record.
  intros name Hname.
  assert (name = VStr "CZ") as -> by (vm_compute in Hname; congruence).
  unfold qasm_names. rewrite !not_elem_of_cons.
  repeat split; try discriminate. apply not_elem_of_nil.
Defined.

Lemma append_nil_l (a : string) : "" +:+ a = a.
Proof. reflexivity. Qed.

Lemma numeral_digit (d : N) : numeral (pretty_N_char d) = true.
Proof. unfold pretty_N_char. by repeat case_match. Qed.

Lemma numeral_pretty (z : Z) : str_forall numeral (pretty z) = true.
Proof. apply str_forall_pretty_Z; [apply numeral_digit|reflexivity]. Qed.

(** Two texts that begin with a numeral followed by another character begin
    with the same numeral. *)
Lemma numeral_prefix_inj (a a' r r' : string) (d d' : ascii) :
  str_forall numeral a = true → str_forall numeral a' = true →
  numeral d = false → numeral d' = false →
  a +:+ String d r = a' +:+ String d' r' →
  a = a' ∧ String d r = String d' r'.
Proof.
  intros Ha Ha' Hd Hd'. revert a' Ha'.
  induction a as [|x a IH]; intros [|y a'] Ha' Heq.
  - done.
  - rewrite append_nil_l, append_cons in Heq. injection Heq as -> _.
    cbn in Ha'. rewrite Hd in Ha'. discriminate.
  - rewrite append_nil_l, append_cons in Heq. injection Heq as -> _.
    cbn in Ha. rewrite Hd' in Ha. discriminate.
  - rewrite !append_cons in Heq. injection Heq as -> Heq.
    cbn in Ha, Ha'. apply andb_true_iff in Ha as [_ Ha].
    apply andb_true_iff in Ha' as [_ Ha'].
    destruct (IH Ha a' Ha' Heq) as [-> Hr]. done.
Qed.

Lemma pretty_prefix_inj (z z' : Z) (r r' : string) :
  pretty z +:+ String "]" r = pretty z' +:+ String "]" r' →
  z = z' ∧ r = r'.
Proof.
  intros Heq.
  apply numeral_prefix_inj in Heq as [Hz Hr];
    [|apply numeral_pretty|apply numeral_pretty|reflexivity|reflexivity].
  apply (inj pretty) in Hz. injection Hr as ->. done.
Qed.

(** Brings the literal beginnings of both sides of an equation between
    lines to constructor form and compares them. *)
Ltac compare_lines H :=
  repeat (rewrite ?append_cons, ?append_nil_l in H;
          first [ discriminate H
                | injection H as H
                | apply pretty_prefix_inj in H as [-> H] ]).

Lemma qasm_line_inj (k k' : kind) : qasm_line k = qasm_line k' → k = k'.
Proof.
  destruct k, k'; cbn [qasm_line]; intros H; compare_lines H;
    try discriminate; reflexivity.
Qed.

(** The export loses nothing: two circuits of records of the seven kinds
    that export, without the optimizer, to the same text have the same qubit
    count and the same records in the same order. *)
Theorem to_qasm_injective (zx_optimize : string → result string)
    (q q' : Z) (ks ks' : list kind) :
  to_qasm zx_optimize false (mk q (record <$> ks))
  = to_qasm zx_optimize false (mk q' (record <$> ks')) →
  q = q' ∧ ks = ks'.
Proof.
  rewrite !to_qasm_records. intros Hexport.
  assert (Htext : unlines (header_lines q ++ (qasm_line <$> ks))
                  = unlines (header_lines q' ++ (qasm_line <$> ks')))
    by congruence.
  apply (f_equal PyStr.splitlines) in Htext.
  rewrite !splitlines_unlines in Htext by apply no_break_lines.
  unfold header_lines in Htext. cbn [app] in Htext.
  injection Htext as Hreg Hlines.
  split; [compare_lines Hreg; reflexivity|].
  clear Hexport Hreg. revert ks' Hlines. induction ks as [|k ks IH]; intros [|k' ks'] Hlines;
    try discriminate; [reflexivity|].
  cbn [fmap list_fmap] in Hlines. injection Hlines as Hk Hks.
  apply qasm_line_inj in Hk as ->. f_equal. by apply IH.
Qed.

Lemma to_qasm_injective_witness :
  12 = 12 ∧ [KCNOT 1 2; KTdg 1] = [KCNOT 1 2; KTdg 1].
Proof.
  apply (to_qasm_injective (λ s, inr s) 12 12 [KCNOT 1 2; KTdg 1]
           [KCNOT 1 2; KTdg 1]).
  reflexivity.
Defined.

(** ** Further properties of the import *)

(** Reads one attribute of the parsed gate in an import branch. *)
Ltac read_attr attrs a x :=
  destruct (attrs !! a) as [x|]; [|discriminate].

Lemma from_qasm_gate_appends (g : zx_gate) (c c' : QuantumCircuit.t) :
  from_qasm_gate g c = (inr tt, c') →
  ∃ ks, c' = mk (n_qubits c) (gates c ++ (record <$> ks))
        ∧ length ks = if hadamard_conjugated g then 3%nat else 1%nat.
Proof.
  unfold from_qasm_gate, getattr, mbind, M_bind, mret, M_ret, raise.
  destruct g as [name attrs]. cbn [zx_name zx_attrs].
  destruct (decide (name = "Tof")) as [->|_].
  { read_attr attrs "ctrl1" a. read_attr attrs "ctrl2" b.
    read_attr attrs "target" qt.
    destruct (is_unique [a; b; qt]) eqn:Hu; run_builder; rewrite Hu;
      [|discriminate].
    intros [= <-]. by exists [KToffoli a b qt]. }
  destruct (decide (name = "CNOT")) as [->|_].
  { read_attr attrs "control" a. read_attr attrs "target" qt.
    run_builder. intros [= <-]. by exists [KCNOT a qt]. }
  destruct (decide (name = "CZ")) as [->|_].
  { read_attr attrs "control" a. read_attr attrs "target" qt.
    run_builder. intros [= <-]. rewrite <- !app_assoc.
    by exists [KHadamard qt; KCNOT a qt; KHadamard qt]. }
  destruct (decide (name = "Z")) as [->|_].
  { read_attr attrs "target" qt.
    run_builder. intros [= <-]. rewrite <- !app_assoc.
    by exists [KHadamard qt; KX qt; KHadamard qt]. }
  destruct (decide (name = "X")) as [->|_].
  { read_attr attrs "target" qt. run_builder. intros [= <-].
    by exists [KX qt]. }
  destruct (decide (name = "HAD")) as [->|_].
  { read_attr attrs "target" qt. run_builder. intros [= <-].
    by exists [KHadamard qt]. }
  destruct (decide (name = "S")) as [->|_].
  { read_attr attrs "target" qt. run_builder. intros [= <-].
    by exists [KS qt]. }
  destruct (decide (name = "T")) as [->|_].
  { read_attr attrs "target" qt. run_builder. intros [= <-].
    by exists [KT qt]. }
  destruct (decide (name = "Tdg")) as [->|_].
  { read_attr attrs "target" qt. run_builder. intros [= <-].
    by exists [KTdg qt]. }
  discriminate.
Qed.

Lemma from_qasm_loop_appends (gs : list zx_gate) (c c' : QuantumCircuit.t) :
  from_qasm_loop gs c = (inr tt, c') →
  ∃ ks, c' = mk (n_qubits c) (gates c ++ (record <$> ks))
        ∧ length ks
          = (length gs + 2 * length (filter hadamard_conjugated gs))%nat.
Proof.
  revert c c'. induction gs as [|g gs IH]; intros c c'.
  - intros [= <-]. exists []. destruct c as [q rs]. cbn.
    by rewrite app_nil_r.
  - cbn [from_qasm_loop]. unfold mbind, M_bind.
    destruct (from_qasm_gate g c) as [[e|[]] c1] eqn:Hg; [discriminate|].
    apply from_qasm_gate_appends in Hg as (ks1 & -> & Hlen1).
    intros Hrest. apply IH in Hrest as (ks2 & -> & Hlen2).
    cbn [n_qubits gates].
    exists (ks1 ++ ks2). rewrite fmap_app, app_assoc. split; [reflexivity|].
    rewrite length_app, Hlen1, Hlen2, filter_cons. cbn [length].
    destruct (hadamard_conjugated g); cbn [Is_true].
    + rewrite decide_True by exact I. cbn [length]. lia.
    + rewrite decide_False by tauto. lia.
Qed.

(** What an import that succeeds returns, whatever the parser is: the qubit
    count is the parsed register size, or 0 when that is negative; the
    records are of the seven kinds, one per parsed gate and two more for
    each CZ and Z; and the circuit can be exported again. *)
Theorem from_qasm_result (zx_optimize : string → result string)
    (zx_from_qasm : string → result zx_circuit) (qasm : string)
    (c : QuantumCircuit.t) :
  from_qasm zx_from_qasm qasm = inr c →
  ∃ qc ks,
    zx_from_qasm qasm = inr qc
    ∧ n_qubits c = Z.max 0 (zx_qubits qc)
    ∧ gates c = record <$> ks
    ∧ length ks
      = (length (zx_gates qc)
         + 2 * length (filter hadamard_conjugated (zx_gates qc)))%nat
    ∧ to_qasm zx_optimize false c
      = inr (unlines (header_lines (n_qubits c) ++ (qasm_line <$> ks))).
Proof.
  unfold from_qasm.
  destruct (zx_from_qasm qasm) as [e|qc]; [discriminate|].
  cbn [mbind result_bind]. unfold mbind, M_bind.
  rewrite request_qubits_run. cbn [n_qubits gates init].
  destruct (from_qasm_loop _ _) as [[e|[]] c1] eqn:Hloop; [discriminate|].
  intros [= <-].
  apply from_qasm_loop_appends in Hloop as (ks & -> & Hlen).
  exists qc, ks. cbn [n_qubits gates app].
  repeat split; [done|apply to_qasm_records].
Qed.

Lemma from_qasm_result_witness :
  ∃ qc ks,
    (λ _ : string,
       (inr (mk_zx_circuit (-2)
               [ mk_zx_gate "CZ" {[ "control" := 0; "target" := 1 ]};
                 mk_zx_gate "T" {[ "target" := 1 ]} ])
        : result zx_circuit)) "" = inr qc
    ∧ n_qubits (mk 0 (record <$> [KHadamard 1; KCNOT 0 1; KHadamard 1; KT 1]))
      = Z.max 0 (zx_qubits qc)
    ∧ gates (mk 0 (record <$> [KHadamard 1; KCNOT 0 1; KHadamard 1; KT 1]))
      = record <$> ks
    ∧ length ks
      = (length (zx_gates qc)
         + 2 * length (filter hadamard_conjugated (zx_gates qc)))%nat
    ∧ to_qasm (inr : string → result string) false
        (mk 0 (record <$> [KHadamard 1; KCNOT 0 1; KHadamard 1; KT 1]))
      = inr (unlines
               (header_lines
                  (n_qubits
                     (mk 0 (record <$>
                              [KHadamard 1; KCNOT 0 1; KHadamard 1; KT 1])))
                ++ (qasm_line <$> ks))).
Proof.
  apply (from_qasm_result (inr : string → result string)
           (λ _ : string,
              (inr (mk_zx_circuit (-2)
                      [ mk_zx_gate "CZ" {[ "control" := 0; "target" := 1 ]};
                        mk_zx_gate "T" {[ "target" := 1 ]} ])
               : result zx_circuit))
           ""
           (mk 0 (record <$> [KHadamard 1; KCNOT 0 1; KHadamard 1; KT 1]))).
  vm_compute. reflexivity.
Defined.

Lemma from_qasm_gate_unknown_name (g : zx_gate) (c : QuantumCircuit.t) :
  zx_name g ∉ import_names →
  from_qasm_gate g c = (inl NotImplementedError, c).
Proof.
  unfold import_names. rewrite !not_elem_of_cons.
  intros (H1 & H2 & H3 & H4 & H5 & H6 & H7 & H8 & H9 & _).
  unfold from_qasm_gate. rewrite !decide_False by done. reflexivity.
Qed.

Lemma from_qasm_loop_unknown_name (gs : list zx_gate) (g : zx_gate)
    (c : QuantumCircuit.t) :
  g ∈ gs → zx_name g ∉ import_names →
  ∃ e c', from_qasm_loop gs c = (inl e, c').
Proof.
  intros Hin Hname. revert c.
  induction gs as [|g0 gs IH]; intros c; [by apply elem_of_nil in Hin|].
  cbn [from_qasm_loop]. unfold mbind, M_bind.
  destruct (from_qasm_gate g0 c) as [[e|[]] c1] eqn:Hg0; [by eauto|].
  apply elem_of_cons in Hin as [<-|Hin].
  - rewrite from_qasm_gate_unknown_name in Hg0 by done. discriminate.
  - apply IH. exact Hin.
Qed.

(** The import fails on every text in which the parser finds a gate whose
    name is none of the nine that [from_qasm] replays, wherever the gate
    stands. *)
Theorem from_qasm_rejects_unknown_name
    (zx_from_qasm : string → result zx_circuit) (qasm : string)
    (qc : zx_circuit) (g : zx_gate) :
  zx_from_qasm qasm = inr qc →
  g ∈ zx_gates qc →
  zx_name g ∉ import_names →
  ∃ e, from_qasm zx_from_qasm qasm = inl e.
Proof.
  intros Hparse Hin Hname. unfold from_qasm. rewrite Hparse.
  cbn [mbind result_bind]. unfold mbind, M_bind.
  rewrite request_qubits_run.
  destruct (from_qasm_loop_unknown_name (zx_gates qc) g
              (mk (n_qubits init + Z.max 0 (zx_qubits qc)) (gates init))
              Hin Hname) as (e & c' & ->).
  by exists e.
Qed.

Lemma from_qasm_rejects_unknown_name_witness :
  ∃ e,
    from_qasm
      (λ _ : string,
         (inr (mk_zx_circuit 1
                 [ mk_zx_gate "HAD" {[ "target" := 0 ]};
                   mk_zx_gate "NOT" {[ "target" := 0 ]} ])
          : result zx_circuit)) ""
    = inl e.
Proof.
  apply (from_qasm_rejects_unknown_name _ ""
           (mk_zx_circuit 1
              [ mk_zx_gate "HAD" {[ "target" := 0 ]};
                mk_zx_gate "NOT" {[ "target" := 0 ]} ])
           (mk_zx_gate "NOT" {[ "target" := 0 ]})).
  - reflexivity.
  - cbn [zx_gates]. rewrite !elem_of_cons. right; left; reflexivity.
  - cbn [zx_name]. unfold import_names. rewrite !not_elem_of_cons.
    repeat split; try discriminate. apply not_elem_of_nil.
Defined.

(** ** The gate counters *)

Lemma num_t_gates_value (gs : list gate) :
  num_t_gates gs
  = if decide (Forall (λ g : gate, is_Some (g !! "name")) gs)
    then inr (Z.of_nat
                (length
                   (filter (λ g : gate, g !! "name" = Some (VStr "T")
                                        ∨ g !! "name" = Some (VStr "Tdg"))
                           gs)))
    else inl KeyError.
Proof.
  induction gs as [|g gs IH].
  - rewrite decide_True by constructor. reflexivity.
  - cbn [num_t_gates]. unfold getitem.
    destruct (g !! "name") as [name|] eqn:Hname.
    + rewrite IH.
      destruct (decide (Forall (λ g0 : gate, is_Some (g0 !! "name")) gs))
        as [Hgs|Hgs].
      * rewrite decide_True by (constructor; [by eexists|done]).
        rewrite filter_cons, Hname. f_equal.
        case_bool_decide as Hin; rewrite !elem_of_cons, elem_of_nil in Hin.
        -- rewrite decide_True by (destruct Hin as [->|[->|[]]]; auto).
           cbn [length]. lia.
        -- rewrite decide_False; [reflexivity|].
           intros [[= ->]|[= ->]]; tauto.
      * rewrite decide_False; [reflexivity|].
        by intros [_ ?]%Forall_cons.
    + rewrite decide_False; [reflexivity|].
      intros [[x Hx] _]%Forall_cons. congruence.
Qed.

(** [num_t] raises [KeyError] when some record has no ["name"]; when every
    record has one it returns the number of records whose name is ["T"] or
    ["Tdg"], which lies between 0 and [num_gates]. *)
Theorem num_t_counts_named_records (c : QuantumCircuit.t) :
  num_t c
  = (if decide (Forall (λ g : gate, is_Some (g !! "name")) (gates c))
     then inr (Z.of_nat
                 (length
                    (filter (λ g : gate, g !! "name" = Some (VStr "T")
                                         ∨ g !! "name" = Some (VStr "Tdg"))
                            (gates c))))
     else inl KeyError)
  ∧ 0 ≤ Z.of_nat
          (length
             (filter (λ g : gate, g !! "name" = Some (VStr "T")
                                  ∨ g !! "name" = Some (VStr "Tdg"))
                     (gates c)))
      ≤ num_gates c.
Proof.
  split; [apply num_t_gates_value|].
  unfold num_gates.
  pose proof (length_filter
                (λ g : gate, g !! "name" = Some (VStr "T")
                             ∨ g !! "name" = Some (VStr "Tdg")) (gates c)).
  lia.
Qed.

(** ** Strings: splitting, stripping, searching, replacing *)

Lemma str_forall_impl (p q : ascii → bool) (s : string) :
  (∀ c, p c = true → q c = true) →
  str_forall p s = true → str_forall q s = true.
Proof.
  intros Hpq. induction s as [|c s IH]; [done|].
  cbn [str_forall]. rewrite !andb_true_iff. intros [Hc Hs].
  split; [by apply Hpq|by apply IH].
Qed.

Lemma prefix_char (c d : ascii) (s : string) :
  String.prefix (String c "") (String d s) = bool_decide (c = d).
Proof.
  cbn [String.prefix]. destruct (ascii_dec c d) as [->|Hne].
  - rewrite bool_decide_eq_true_2 by done. by destruct s.
  - by rewrite bool_decide_eq_false_2.
Qed.

Lemma split_go_no_sep (c : ascii) (cur s : string) :
  str_forall (other_than c) s = true →
  PyStr.split_go (String c "") 0 cur s = [cur +:+ s].
Proof.
  revert cur. induction s as [|d s IH]; intros cur Hs.
  - cbn. by rewrite append_nil_r.
  - cbn [str_forall] in Hs. apply andb_true_iff in Hs as [Hd Hs].
    unfold other_than in Hd. apply negb_true_iff, bool_decide_eq_false in Hd.
    cbn [PyStr.split_go]. rewrite prefix_char.
    rewrite bool_decide_eq_false_2 by congruence.
    rewrite IH by done. unfold PyStr.snoc. by rewrite append_assoc.
Qed.

Lemma split_go_at_sep (c : ascii) (cur x y : string) :
  str_forall (other_than c) x = true →
  PyStr.split_go (String c "") 0 cur (x +:+ String c y)
  = (cur +:+ x) :: PyStr.split_go (String c "") 0 "" y.
Proof.
  revert cur. induction x as [|d x IH]; intros cur Hx.
  - rewrite append_nil_l, append_nil_r. cbn [PyStr.split_go].
    rewrite prefix_char, bool_decide_eq_true_2 by done. reflexivity.
  - cbn [str_forall] in Hx. apply andb_true_iff in Hx as [Hd Hx].
    unfold other_than in Hd. apply negb_true_iff, bool_decide_eq_false in Hd.
    rewrite append_cons. cbn [PyStr.split_go]. rewrite prefix_char.
    rewrite bool_decide_eq_false_2 by congruence.
    rewrite IH by done. unfold PyStr.snoc. by rewrite append_assoc.
Qed.

(** A text with exactly one separator splits in two. *)
Lemma split_once (c : ascii) (x y : string) :
  str_forall (other_than c) x = true → str_forall (other_than c) y = true →
  PyStr.split (String c "") (x +:+ String c y) = [x; y].
Proof.
  intros Hx Hy. unfold PyStr.split.
  rewrite split_go_at_sep by done. by rewrite split_go_no_sep.
Qed.

Lemma contains_char_absent (c : ascii) (s : string) :
  str_forall (other_than c) s = true →
  PyStr.contains (String c "") s = false.
Proof.
  induction s as [|d s IH]; [done|].
  cbn [str_forall]. rewrite andb_true_iff. intros [Hd Hs].
  unfold other_than in Hd. apply negb_true_iff, bool_decide_eq_false in Hd.
  cbn [PyStr.contains]. rewrite prefix_char, IH by done.
  by rewrite bool_decide_eq_false_2 by congruence.
Qed.

Lemma contains_char_present (c : ascii) (x y : string) :
  PyStr.contains (String c "") (x +:+ String c y) = true.
Proof.
  induction x as [|d x IH].
  - rewrite append_nil_l. cbn [PyStr.contains].
    by rewrite prefix_char, bool_decide_eq_true_2.
  - rewrite append_cons. cbn [PyStr.contains]. rewrite IH.
    apply orb_true_r.
Qed.

Lemma replace_char_absent (c : ascii) (new s : string) :
  str_forall (other_than c) s = true →
  PyStr.replace (String c "") new s = s.
Proof.
  unfold PyStr.replace. induction s as [|d s IH]; [done|].
  cbn [str_forall]. rewrite andb_true_iff. intros [Hd Hs].
  unfold other_than in Hd. apply negb_true_iff, bool_decide_eq_false in Hd.
  cbn [PyStr.replace_go]. rewrite prefix_char.
  rewrite bool_decide_eq_false_2 by congruence. by rewrite IH.
Qed.

Lemma blank_spaces (w : string) : blank w → spaces w.
Proof.
  apply str_forall_impl. intros c Hc. by apply andb_true_iff in Hc as [Hc _].
Qed.

Lemma lstrip_blank (w s : string) :
  spaces w →
  PyStr.lstrip_by PyStr.is_space (w +:+ s) = PyStr.lstrip_by PyStr.is_space s.
Proof.
  unfold spaces. induction w as [|c w IH]; [done|].
  cbn [str_forall]. rewrite andb_true_iff. intros [Hc Hw].
  rewrite append_cons. cbn [PyStr.lstrip_by]. rewrite Hc. by apply IH.
Qed.

Lemma lstrip_nonspace_head (m s : string) :
  m ≠ "" → str_forall nonspace m = true →
  PyStr.lstrip_by PyStr.is_space (m +:+ s) = m +:+ s.
Proof.
  destruct m as [|c m]; [done|]. intros _.
  cbn [str_forall]. rewrite andb_true_iff. intros [Hc _].
  apply negb_true_iff in Hc.
  rewrite append_cons. cbn [PyStr.lstrip_by]. by rewrite Hc.
Qed.

Lemma rstrip_blank (w : string) :
  spaces w → PyStr.rstrip_by PyStr.is_space w = "".
Proof.
  unfold spaces. induction w as [|c w IH]; [done|].
  cbn [str_forall]. rewrite andb_true_iff. intros [Hc Hw].
  cbn [PyStr.rstrip_by]. by rewrite IH, Hc.
Qed.

Lemma rstrip_nonspace (m : string) :
  str_forall nonspace m = true → PyStr.rstrip_by PyStr.is_space m = m.
Proof.
  induction m as [|c m IH]; [done|].
  cbn [str_forall]. rewrite andb_true_iff. intros [Hc Hm].
  apply negb_true_iff in Hc.
  cbn [PyStr.rstrip_by]. rewrite IH, Hc by done. by destruct m.
Qed.

Lemma rstrip_app (p : ascii → bool) (x y : string) :
  PyStr.rstrip_by p (x +:+ y)
  = match PyStr.rstrip_by p y with
    | EmptyString => PyStr.rstrip_by p x
    | r => x +:+ r
    end.
Proof.
  induction x as [|c x IH].
  - rewrite append_nil_l. by destruct (PyStr.rstrip_by p y).
  - rewrite append_cons. cbn [PyStr.rstrip_by]. rewrite IH.
    destruct (PyStr.rstrip_by p y); [reflexivity|].
    by destruct x.
Qed.

(** Stripping removes the blanks around a text that begins and ends with
    characters that are not blank. *)
Lemma strip_padded (w w' m1 mid m2 : string) :
  spaces w → spaces w' →
  m1 ≠ "" → str_forall nonspace m1 = true →
  m2 ≠ "" → str_forall nonspace m2 = true →
  PyStr.strip (w +:+ m1 +:+ mid +:+ m2 +:+ w') = m1 +:+ mid +:+ m2.
Proof.
  intros Hw Hw' Hne1 Hm1 Hne2 Hm2. unfold PyStr.strip.
  rewrite lstrip_blank, lstrip_nonspace_head by done.
  rewrite <- !append_assoc, rstrip_app, rstrip_blank by done.
  rewrite rstrip_app, rstrip_nonspace by done.
  destruct m2; [done|reflexivity].
Qed.

Lemma strip_padded_word (w w' m : string) :
  spaces w → spaces w' → m ≠ "" → str_forall nonspace m = true →
  PyStr.strip (w +:+ m +:+ w') = m.
Proof.
  intros Hw Hw' Hne Hm. unfold PyStr.strip.
  rewrite lstrip_blank, lstrip_nonspace_head by done.
  rewrite rstrip_app, rstrip_blank by done. by apply rstrip_nonspace.
Qed.

Lemma strip_word_r (m w' : string) :
  spaces w' → m ≠ "" → str_forall nonspace m = true →
  PyStr.strip (m +:+ w') = m.
Proof. intros Hw' Hne Hm. by apply (strip_padded_word "" w' m). Qed.

Lemma strip_word_l (w m : string) :
  spaces w → m ≠ "" → str_forall nonspace m = true →
  PyStr.strip (w +:+ m) = m.
Proof.
  intros Hw Hne Hm. rewrite <- (append_nil_r m) at 1.
  by apply (strip_padded_word w "" m).
Qed.

(** ** Parsing an assignment *)

Lemma blank_other_than (d : ascii) (w : string) :
  PyStr.is_space d = false → spaces w → str_forall (other_than d) w = true.
Proof.
  intros Hd. apply str_forall_impl. intros c Hc. unfold other_than.
  apply negb_true_iff, bool_decide_eq_false. congruence.
Qed.

Lemma name_other_than (d : ascii) (a : string) :
  PyStr.mem d "=&|^~" = true → str_forall name_char a = true →
  str_forall (other_than d) a = true.
Proof.
  intros Hd. apply str_forall_impl. intros c Hc. unfold other_than.
  apply negb_true_iff, bool_decide_eq_false. intros ->.
  unfold name_char in Hc. rewrite !andb_true_iff in Hc.
  destruct Hc as [[_ Hc] _]. rewrite Hd in Hc. discriminate.
Qed.

Lemma name_nonspace (a : string) :
  str_forall name_char a = true → str_forall nonspace a = true.
Proof.
  apply str_forall_impl. intros c Hc. unfold name_char in Hc.
  rewrite !andb_true_iff in Hc. by destruct Hc as [[Hc _] _].
Qed.

Lemma operand_nonspace (negated : bool) (a : string) :
  wire_name a →
  tilde negated +:+ a ≠ "" ∧ str_forall nonspace (tilde negated +:+ a) = true.
Proof.
  intros [Hne Ha%name_nonspace]. destruct negated; cbn [tilde].
  - split; [done|]. rewrite str_forall_app, Ha. reflexivity.
  - by rewrite append_nil_l.
Qed.

Lemma operand_other_than (d : ascii) (negated : bool) (a : string) :
  PyStr.mem d "=&|^" = true → wire_name a →
  str_forall (other_than d) (tilde negated +:+ a) = true.
Proof.
  intros Hd [_ Ha].
  assert (Hd' : PyStr.mem d "=&|^~" = true).
  { cbn [PyStr.mem] in *. repeat case_decide; done. }
  rewrite str_forall_app, (name_other_than d a Hd' Ha), andb_true_r.
  destruct negated; cbn [tilde str_forall]; [|done].
  unfold other_than. rewrite andb_true_r.
  apply negb_true_iff, bool_decide_eq_false. intros <-. discriminate.
Qed.

(** What [from_assignment] reads off an operand: whether it has the
    negation sign, and its name. *)
Lemma operand_parse (negated : bool) (a : string) :
  wire_name a →
  PyStr.contains "~" (tilde negated +:+ a) = negated
  ∧ PyStr.replace "~" "" (tilde negated +:+ a) = a.
Proof.
  intros [_ Ha].
  assert (Ht : str_forall (other_than "~") a = true)
    by (by apply name_other_than).
  destruct negated; cbn [tilde].
  - split; [apply (contains_char_present "~" "" a)|].
    unfold PyStr.replace. rewrite append_cons, append_nil_l.
    cbn [PyStr.replace_go]. rewrite prefix_char.
    rewrite bool_decide_eq_true_2 by done. rewrite append_nil_l.
    cbn [String.length Nat.sub]. by apply replace_char_absent.
  - rewrite append_nil_l. split; [by apply contains_char_absent|].
    by apply replace_char_absent.
Qed.

Lemma tilde_other_than (d : ascii) (negated : bool) :
  d ≠ "~"%char → str_forall (other_than d) (tilde negated) = true.
Proof.
  intros Hd. destruct negated; cbn [tilde str_forall]; [|done].
  unfold other_than. rewrite andb_true_r.
  apply negb_true_iff, bool_decide_eq_false. congruence.
Qed.

(** Closes the goals that a text built from blanks, names, negation signs
    and an operator sign has no character [d], for a given sign [d]. *)
Ltac no_char :=
  rewrite ?str_forall_app, ?andb_true_iff; repeat split;
  try first
    [ apply blank_other_than; [first [reflexivity|assumption]|assumption]
    | apply tilde_other_than; first [discriminate|assumption]
    | apply name_other_than; [first [reflexivity|assumption]|assumption]
    | reflexivity ].

(** The step of the loop of [from_assignment] at an operator sign that the
    expression does not have. *)
Lemma from_assignment_ops_skip (op : string) (ops : list string)
    (assign_to assign_from : string) (map_or : bool) (h : LogicGate.heap) :
  PyStr.contains op assign_from = false →
  LogicGate.from_assignment_ops (op :: ops) assign_to assign_from map_or h
  = LogicGate.from_assignment_ops ops assign_to assign_from map_or h.
Proof. intros Hop. cbn [LogicGate.from_assignment_ops]. by rewrite Hop. Qed.

(** The step of the loop of [from_assignment] at the operator sign that the
    expression has. *)
Lemma from_assignment_ops_match (op : ascii) (ops : list string)
    (out a b w3 w4 : string) (n1 n2 map_or : bool) (h : LogicGate.heap) :
  PyStr.is_space op = false → op ≠ "~"%char →
  PyStr.mem op "=&|^~" = true →
  spaces w3 → spaces w4 → wire_name a → wire_name b →
  LogicGate.from_assignment_ops (String op "" :: ops) out
    ((tilde n1 +:+ a) +:+ (w3 +:+ String op "" +:+ w4) +:+ tilde n2 +:+ b)
    map_or h
  = (inr (LogicGate.mk
            (if map_or && bool_decide (String op "" = "|") then "&"
             else String op "")
            [a; b] out (length h)),
     h ++ [ {[ "p1" := xorb n1 (map_or && bool_decide (String op "" = "|"));
               "p2" := xorb n2 (map_or && bool_decide (String op "" = "|"));
               "p3" := map_or && bool_decide (String op "" = "|") ]} ]).
Proof.
  intros Hsp Hnt Hmem Hw3 Hw4 Ha Hb.
  destruct (operand_nonspace n1 a Ha) as [Hne1 Hns1].
  destruct (operand_nonspace n2 b Hb) as [Hne2 Hns2].
  destruct (operand_parse n1 a Ha) as [Hp1 Hs1].
  destruct (operand_parse n2 b Hb) as [Hp2 Hs2].
  destruct Ha as [_ Ha]. destruct Hb as [_ Hb].
  replace ((tilde n1 +:+ a) +:+ (w3 +:+ String op "" +:+ w4) +:+
           tilde n2 +:+ b)
    with (((tilde n1 +:+ a) +:+ w3) +:+ String op (w4 +:+ tilde n2 +:+ b))
    by (rewrite !append_assoc; reflexivity).
  cbn [LogicGate.from_assignment_ops].
  rewrite contains_char_present.
  rewrite split_once; [|no_char|no_char].
  cbn [fmap list_fmap].
  rewrite (strip_word_r (tilde n1 +:+ a) w3) by done.
  rewrite (strip_word_l w4 (tilde n2 +:+ b)) by done.
  rewrite Hp1, Hp2, Hs1, Hs2.
  destruct (map_or && bool_decide (String op "" = "|"));
    rewrite ?xorb_true_r, ?xorb_false_r; reflexivity.
Qed.

(** The run of [from_assignment] on a binary assignment. *)
Lemma from_assignment_binary_run (w0 w1 w2 w3 w4 w5 out a b : string)
    (n1 n2 : bool) (op : ascii) (map_or : bool) (h : LogicGate.heap) :
  blank w0 → blank w1 → blank w2 → blank w3 → blank w4 → blank w5 →
  wire_name out → wire_name a → wire_name b →
  op ∈ ["&"; "|"; "^"]%char →
  LogicGate.from_assignment
    (w0 +:+ out +:+ w1 +:+ "=" +:+ w2 +:+ (tilde n1 +:+ a) +:+ w3 +:+
     String op "" +:+ w4 +:+ (tilde n2 +:+ b) +:+ w5) map_or h
  = (inr (LogicGate.mk
            (if map_or && bool_decide (String op "" = "|") then "&"
             else String op "")
            [a; b] out (length h)),
     h ++ [ {[ "p1" := xorb n1 (map_or && bool_decide (String op "" = "|"));
               "p2" := xorb n2 (map_or && bool_decide (String op "" = "|"));
               "p3" := map_or && bool_decide (String op "" = "|") ]} ]).
Proof.
  intros Hw0 Hw1 Hw2 Hw3 Hw4 Hw5 Hout Ha Hb Hop.
  apply blank_spaces in Hw0, Hw1, Hw2, Hw3, Hw4, Hw5.
  destruct (operand_nonspace n1 a Ha) as [Hne1 Hns1].
  destruct (operand_nonspace n2 b Hb) as [Hne2 Hns2].
  destruct (operand_parse n1 a Ha) as [Hp1 Hs1].
  destruct (operand_parse n2 b Hb) as [Hp2 Hs2].
  destruct Hout as [Hneo Hout]. pose proof (name_nonspace out Hout) as Hnso.
  pose proof (proj2 Ha) as Hca. pose proof (proj2 Hb) as Hcb.
  unfold LogicGate.from_assignment.
  replace (w0 +:+ out +:+ w1 +:+ "=" +:+ w2 +:+ (tilde n1 +:+ a) +:+ w3 +:+
           String op "" +:+ w4 +:+ (tilde n2 +:+ b) +:+ w5)
    with ((w0 +:+ out +:+ w1) +:+
          String "=" (w2 +:+ (tilde n1 +:+ a) +:+
                      (w3 +:+ String op "" +:+ w4) +:+ (tilde n2 +:+ b)
                      +:+ w5))
    by (rewrite !append_assoc; reflexivity).
  rewrite split_once; [|no_char|].
  2:{ rewrite !elem_of_cons, elem_of_nil in Hop.
      destruct Hop as [->|[->|[->|[]]]]; no_char. }
  cbn [fmap list_fmap].
  rewrite (strip_padded_word w0 w1 out) by done.
  rewrite (strip_padded w2 w5 (tilde n1 +:+ a) _ (tilde n2 +:+ b)) by done.
  assert (Hskip : ∀ d : ascii, PyStr.mem d "=&|^~" = true →
            PyStr.is_space d = false → d ≠ "~"%char → d ≠ op →
            PyStr.contains (String d "")
              ((tilde n1 +:+ a) +:+ (w3 +:+ String op "" +:+ w4) +:+
               tilde n2 +:+ b) = false).
  { intros d Hd Hsd Htd Hdo. apply contains_char_absent. no_char.
    cbn [str_forall]. unfold other_than.
    rewrite andb_true_r. apply negb_true_iff, bool_decide_eq_false.
    congruence. }
  rewrite !elem_of_cons, elem_of_nil in Hop.
  destruct Hop as [->|[->|[->|[]]]].
  - by rewrite from_assignment_ops_match.
  - rewrite from_assignment_ops_skip by (by apply Hskip).
    by rewrite from_assignment_ops_match.
  - rewrite !from_assignment_ops_skip by (by apply Hskip).
    by rewrite from_assignment_ops_match.
Qed.

(** [from_assignment] on a binary assignment
    [out = [~]a op [~]b], with any blanks around the names and the signs:
    the result has inputs a, b and output out, and a new dictionary.  With
    the rewrite on, an [|] gives an [&] record whose p1, p2 are the negations
    of the operands' signs and whose p3 is true; every other case keeps the
    operator, the signs as p1, p2, and p3 false.  The heap is extended by
    the new dictionary and not changed otherwise. *)
Theorem from_assignment_binary (w0 w1 w2 w3 w4 w5 out a b : string)
    (n1 n2 : bool) (op : ascii) (map_or : bool) (h : LogicGate.heap) :
  blank w0 → blank w1 → blank w2 → blank w3 → blank w4 → blank w5 →
  wire_name out → wire_name a → wire_name b →
  op ∈ ["&"; "|"; "^"]%char →
  LogicGate.from_assignment
    (w0 +:+ out +:+ w1 +:+ "=" +:+ w2 +:+ (tilde n1 +:+ a) +:+ w3 +:+
     String op "" +:+ w4 +:+ (tilde n2 +:+ b) +:+ w5) map_or h
  = (inr (LogicGate.mk
            (if map_or && bool_decide (String op "" = "|") then "&"
             else String op "")
            [a; b] out (length h)),
     h ++ [ {[ "p1" := xorb n1 (map_or && bool_decide (String op "" = "|"));
               "p2" := xorb n2 (map_or && bool_decide (String op "" = "|"));
               "p3" := map_or && bool_decide (String op "" = "|") ]} ]).
Proof. apply from_assignment_binary_run. Qed.

Lemma from_assignment_binary_witness :
  LogicGate.from_assignment
    ("" +:+ "y" +:+ " " +:+ "=" +:+ " " +:+ (tilde true +:+ "a") +:+ " " +:+
     String "|" "" +:+ "" +:+ (tilde false +:+ "b") +:+ " ") true [∅]
  = (inr (LogicGate.mk
            (if true && bool_decide (String "|" "" = "|") then "&"
             else String "|" "")
            ["a"; "b"] "y" (length [(∅ : gmap string bool)])),
     [∅] ++ [ {[ "p1" := xorb true (true && bool_decide (String "|" "" = "|"));
                 "p2" := xorb false (true && bool_decide (String "|" "" = "|"));
                 "p3" := true && bool_decide (String "|" "" = "|") ]} ]).
Proof.
  apply (from_assignment_binary "" " " " " " " "" " " "y" "a" "b"
           true false "|" true [∅]);
    try reflexivity; try (split; [discriminate|reflexivity]).
  rewrite !elem_of_cons. right; left; reflexivity.
Defined.

(** [from_assignment] on a plain assignment [out = [~]a]: the record has
    the type [=], the input a and the output out, whether a negation sign
    stands before the operand or not; it holds the default dictionary, and
    the heap is not changed. *)
Theorem from_assignment_plain (w0 w1 w2 w3 out a : string) (negated : bool)
    (map_or : bool) (h : LogicGate.heap) :
  blank w0 → blank w1 → blank w2 → blank w3 →
  wire_name out → wire_name a →
  LogicGate.from_assignment
    (w0 +:+ out +:+ w1 +:+ "=" +:+ w2 +:+ (tilde negated +:+ a) +:+ w3)
    map_or h
  = (inr (LogicGate.mk "=" [a] out LogicGate.default_data), h).
Proof.
  intros Hw0 Hw1 Hw2 Hw3 Hout Ha.
  apply blank_spaces in Hw0, Hw1, Hw2, Hw3.
  destruct (operand_nonspace negated a Ha) as [Hne1 Hns1].
  destruct (operand_parse negated a Ha) as [Hp1 Hs1].
  destruct Hout as [Hneo Hout]. pose proof (name_nonspace out Hout) as Hnso.
  pose proof (proj2 Ha) as Hca.
  unfold LogicGate.from_assignment.
  replace (w0 +:+ out +:+ w1 +:+ "=" +:+ w2 +:+ (tilde negated +:+ a) +:+ w3)
    with ((w0 +:+ out +:+ w1) +:+
          String "=" (w2 +:+ (tilde negated +:+ a) +:+ w3))
    by (rewrite !append_assoc; reflexivity).
  rewrite split_once; [|no_char|no_char].
  cbn [fmap list_fmap].
  rewrite (strip_padded_word w0 w1 out) by done.
  rewrite (strip_padded_word w2 w3 (tilde negated +:+ a)) by done.
  rewrite !from_assignment_ops_skip
    by (apply contains_char_absent; no_char).
  cbn [LogicGate.from_assignment_ops]. rewrite Hs1. reflexivity.
Qed.

Lemma from_assignment_plain_witness :
  LogicGate.from_assignment
    ("" +:+ "y" +:+ " " +:+ "=" +:+ " " +:+ (tilde true +:+ "a") +:+ "")
    false [∅]
  = (inr (LogicGate.mk "=" ["a"] "y" LogicGate.default_data), [∅]).
Proof.
  apply (from_assignment_plain "" " " " " "" "y" "a" true false [∅]);
    try reflexivity; (split; [discriminate|reflexivity]).
Defined.

Lemma split_go_length (c : ascii) (cur s : string) :
  length (PyStr.split_go (String c "") 0 cur s) = S (count_char c s).
Proof.
  revert cur. induction s as [|d s IH]; intros cur; [reflexivity|].
  cbn [PyStr.split_go count_char]. rewrite prefix_char.
  rewrite (bool_decide_ext (c = d) (d = c)) by (split; congruence).
  case_bool_decide; cbn [length String.length Nat.sub]; by rewrite IH.
Qed.

(** [from_assignment] needs exactly one [=] sign: on a text with none, or
    with two or more, it raises [ValueError], and the heap is not changed. *)
Theorem from_assignment_one_equals_sign (assign_str : string) (map_or : bool)
    (h : LogicGate.heap) :
  count_char "=" assign_str ≠ 1%nat →
  LogicGate.from_assignment assign_str map_or h = (inl ValueError, h).
Proof.
  intros Hcount. unfold LogicGate.from_assignment.
  pose proof (split_go_length "=" "" assign_str) as Hlen.
  fold (PyStr.split "=" assign_str) in Hlen.
  destruct (PyStr.split "=" assign_str) as [|x [|y [|z rest]]];
    cbn [length] in Hlen; try reflexivity.
  lia.
Qed.

Lemma from_assignment_one_equals_sign_witness :
  LogicGate.from_assignment "y == a & b" true [∅] = (inl ValueError, [∅]).
Proof.
  apply from_assignment_one_equals_sign. vm_compute. lia.
Defined.

(** ** Dictionaries of the logic gates *)

Lemma from_assignment_ops_heap (ops : list string)
    (assign_to assign_from : string) (map_or : bool) (h h' : LogicGate.heap)
    (r : exn + LogicGate.t) :
  "=" ∉ ops →
  LogicGate.from_assignment_ops ops assign_to assign_from map_or h = (r, h') →
  (h' = h
   ∧ ∀ g, r = inr g →
          LogicGate.data g = LogicGate.default_data
          ∧ LogicGate.gate_type g = "=")
  ∨ (∃ d g, h' = h ++ [d] ∧ r = inr g
            ∧ LogicGate.data g = length h ∧ LogicGate.gate_type g ≠ "=").
Proof.
  intros Hops. induction ops as [|op ops IH].
  - cbn [LogicGate.from_assignment_ops]. intros [= <- <-]. left.
    split; [done|]. by intros g [= <-].
  - apply not_elem_of_cons in Hops as [Hop Hops].
    cbn [LogicGate.from_assignment_ops].
    destruct (PyStr.contains op assign_from); [|by apply IH].
    destruct (PyStr.strip <$> PyStr.split op assign_from)
      as [|s1 [|s2 [|s3 rest]]];
      try (intros [= <- <-]; left; split; [done|]; by intros g [=]).
    destruct (map_or && bool_decide (op = "|")).
    + intros [= <- <-]. right. eexists _, _.
      split; [reflexivity|]. split; [reflexivity|]. by split.
    + intros [= <- <-]. right. eexists _, _.
      split; [reflexivity|]. split; [reflexivity|]. split; [done|].
      cbn. congruence.
Qed.

(** What [from_assignment] does to the heap. *)
Lemma from_assignment_allocates (assign_str : string) (map_or : bool)
    (h h' : LogicGate.heap) (r : exn + LogicGate.t) :
  LogicGate.from_assignment assign_str map_or h = (r, h') →
  (h' = h
   ∧ ∀ g, r = inr g →
          LogicGate.data g = LogicGate.default_data
          ∧ LogicGate.gate_type g = "=")
  ∨ (∃ d g, h' = h ++ [d] ∧ r = inr g
            ∧ LogicGate.data g = length h ∧ LogicGate.gate_type g ≠ "=").
Proof.
  unfold LogicGate.from_assignment.
  destruct (PyStr.strip <$> PyStr.split "=" assign_str)
    as [|assign_to [|assign_from [|x rest]]];
    try (intros [= <- <-]; left; split; [done|]; by intros g [=]).
  apply from_assignment_ops_heap.
  rewrite !not_elem_of_cons. repeat split; try discriminate.
  apply not_elem_of_nil.
Qed.

(** [from_assignment] never changes a dictionary that exists.  Either the
    heap is as before, and then a record that is returned is one of type
    [=] holding the default dictionary; or one dictionary was added at a
    new location, and the record returned holds it and has an operator
    type. *)
Theorem from_assignment_heap (assign_str : string) (map_or : bool)
    (h h' : LogicGate.heap) (r : exn + LogicGate.t) :
  LogicGate.from_assignment assign_str map_or h = (r, h') →
  (h' = h
   ∧ ∀ g, r = inr g →
          LogicGate.data g = LogicGate.default_data
          ∧ LogicGate.gate_type g = "=")
  ∨ (∃ d g, h' = h ++ [d] ∧ r = inr g
            ∧ LogicGate.data g = length h ∧ LogicGate.gate_type g ≠ "=").
Proof. apply from_assignment_allocates. Qed.

Lemma from_assignment_heap_witness :
  let h' : LogicGate.heap :=
    [∅; {[ "p1" := false; "p2" := false; "p3" := false ]}] in
  let r : exn + LogicGate.t :=
    inr (LogicGate.mk "^" ["a"; "b"] "y" 1%nat) in
  (h' = [∅]
   ∧ ∀ g, r = inr g →
          LogicGate.data g = LogicGate.default_data
          ∧ LogicGate.gate_type g = "=")
  ∨ (∃ d g, h' = [∅] ++ [d] ∧ r = inr g
            ∧ LogicGate.data g = length ([∅] : LogicGate.heap)
            ∧ LogicGate.gate_type g ≠ "=").
Proof.
  intros h' r.
  apply (from_assignment_heap "y = a ^ b" true [∅] h' r).
  vm_compute. reflexivity.
Defined.

(** Two records of operator type made by successive calls of
    [from_assignment] hold different dictionaries, the second call leaves
    the dictionary of the first as it was, and a store through the first
    record does not show in the data of the second. *)
Theorem operator_gates_own_their_data (s1 s2 : string) (m1 m2 : bool)
    (h h1 h2 : LogicGate.heap) (g1 g2 : LogicGate.t)
    (k : string) (v : bool) :
  LogicGate.from_assignment s1 m1 h = (inr g1, h1) →
  LogicGate.from_assignment s2 m2 h1 = (inr g2, h2) →
  LogicGate.gate_type g1 ≠ "=" → LogicGate.gate_type g2 ≠ "=" →
  LogicGate.data g1 ≠ LogicGate.data g2
  ∧ h2 !! LogicGate.data g1 = h1 !! LogicGate.data g1
  ∧ ∃ d2 h3,
      h2 !! LogicGate.data g2 = Some d2
      ∧ (LogicGate.dict_setitem (LogicGate.data g1) k v ;;
         LogicGate.dict_read (LogicGate.data g2)) h2 = (inr d2, h3).
Proof.
  intros Hg1 Hg2 Ht1 Ht2.
  apply from_assignment_allocates in Hg1 as [[_ Hg1]|(d1 & g & -> & [= <-] & Hd1 & _)].
  { destruct (Hg1 g1 eq_refl) as [_ ?]. done. }
  apply from_assignment_allocates in Hg2 as [[_ Hg2]|(d2 & g & -> & [= <-] & Hd2 & _)].
  { destruct (Hg2 g2 eq_refl) as [_ ?]. done. }
  rewrite length_app in Hd2. cbn [length] in Hd2.
  unfold LogicGate.heap, LogicGate.loc in *.
  split; [lia|]. split.
  - rewrite lookup_app_l; [done|]. rewrite length_app. cbn. lia.
  - exists d2.
    assert (Hl2 : ((h ++ [d1]) ++ [d2]) !! LogicGate.data g2 = Some d2).
    { rewrite Hd2, lookup_app_r by (rewrite length_app; cbn; lia).
      rewrite length_app. cbn [length].
      by replace (length h + 1 - (length h + 1))%nat with 0%nat by lia. }
    eexists. split; [done|].
    unfold mbind, LogicGate.H_bind, LogicGate.dict_setitem,
      LogicGate.dict_read.
    unfold LogicGate.heap, LogicGate.loc.
    rewrite list_lookup_alter_ne by lia.
    match goal with
    | |- context [?x !! ?i] => replace (x !! i) with (Some d2)
    end.
    reflexivity.
Qed.

Lemma operator_gates_own_their_data_witness :
  LogicGate.data (LogicGate.mk "&" ["a"; "b"] "y" 1%nat)
  ≠ LogicGate.data (LogicGate.mk "^" ["c"; "d"] "z" 2%nat)
  ∧ ([∅; {[ "p1" := false; "p2" := false; "p3" := false ]};
       {[ "p1" := false; "p2" := true; "p3" := false ]}] : LogicGate.heap)
      !! LogicGate.data (LogicGate.mk "&" ["a"; "b"] "y" 1%nat)
    = ([∅; {[ "p1" := false; "p2" := false; "p3" := false ]}]
        : LogicGate.heap)
      !! LogicGate.data (LogicGate.mk "&" ["a"; "b"] "y" 1%nat)
  ∧ ∃ d2 h3,
      ([∅; {[ "p1" := false; "p2" := false; "p3" := false ]};
         {[ "p1" := false; "p2" := true; "p3" := false ]}] : LogicGate.heap)
        !! LogicGate.data (LogicGate.mk "^" ["c"; "d"] "z" 2%nat) = Some d2
      ∧ (LogicGate.dict_setitem
           (LogicGate.data (LogicGate.mk "&" ["a"; "b"] "y" 1%nat)) "p3" true ;;
         LogicGate.dict_read
           (LogicGate.data (LogicGate.mk "^" ["c"; "d"] "z" 2%nat)))
          [∅; {[ "p1" := false; "p2" := false; "p3" := false ]};
           {[ "p1" := false; "p2" := true; "p3" := false ]}]
        = (inr d2, h3).
Proof.
  apply (operator_gates_own_their_data "y = a & b" "z = c ^ ~d" true true
           [∅] _ _ _ _ "p3" true);
    [vm_compute; reflexivity|vm_compute; reflexivity
    |discriminate|discriminate].
Defined.

(** ** The logic network *)

(** [to_verilog] is only there for a network without gates: with at least
    one gate it raises [NotImplementedError], the first call of
    [to_assignment]; with none it returns the module text that declares
    the inputs and outputs and no wire.  The heap is not changed. *)
Theorem to_verilog_only_without_gates (ntk : LogicNetwork.t)
    (h : LogicGate.heap) :
  LogicNetwork.to_verilog ntk h
  = if decide (LogicNetwork.gates ntk = ∅) then
      (inr (unlines
              [ "module top(";
                PyStr.join ", "
                  (LogicNetwork.inputs ntk ++ LogicNetwork.outputs ntk);
                ");";
                "  input " +:+ PyStr.join ", " (LogicNetwork.inputs ntk)
                  +:+ ";";
                "  output " +:+ PyStr.join ", " (LogicNetwork.outputs ntk)
                  +:+ ";";
                "  wire ;";
                "endmodule" ]), h)
    else (inl NotImplementedError, h).
Proof.
  unfold LogicNetwork.to_verilog.
  destruct (decide (LogicNetwork.gates ntk = ∅)) as [Hempty|Hgates].
  - rewrite Hempty, map_to_list_empty.
    cbn [fmap list_fmap filter list_filter LogicNetwork.to_verilog_loop
         PyStr.join unlines].
    unfold mbind, LogicGate.H_bind, mret, LogicGate.H_ret.
    rewrite !append_assoc. reflexivity.
  - destruct (map_to_list (LogicNetwork.gates ntk)) as [|[k g] rest] eqn:Hl.
    + by apply map_to_list_empty_iff in Hl.
    + reflexivity.
Qed.

(** ** Lists of names *)

Lemma rstrip_by_idemp (p : ascii → bool) (s : string) :
  PyStr.rstrip_by p (PyStr.rstrip_by p s) = PyStr.rstrip_by p s.
Proof.
  induction s as [|c s IH]; [reflexivity|].
  cbn [PyStr.rstrip_by].
  destruct (PyStr.rstrip_by p s) as [|d r] eqn:Hr.
  - destruct (p c) eqn:Hc; [reflexivity|].
    cbn [PyStr.rstrip_by]. by rewrite Hc.
  - cbn [PyStr.rstrip_by]. cbn [PyStr.rstrip_by] in IH.
    destruct (PyStr.rstrip_by p r) as [|e r'].
    + destruct (p d); [discriminate|]. by injection IH as ->.
    + by rewrite IH.
Qed.

Lemma lstrip_by_head (p : ascii → bool) (s : string) :
  match PyStr.lstrip_by p s with
  | EmptyString => True
  | String c _ => p c = false
  end.
Proof.
  induction s as [|c s IH]; [done|].
  cbn [PyStr.lstrip_by]. by destruct (p c) eqn:Hc.
Qed.

Lemma rstrip_by_keeps_head (p : ascii → bool) (c : ascii) (s : string) :
  p c = false → ∃ r, PyStr.rstrip_by p (String c s) = String c r.
Proof.
  intros Hc. cbn [PyStr.rstrip_by]. rewrite Hc.
  destruct (PyStr.rstrip_by p s); eauto.
Qed.

Lemma strip_idemp (s : string) : PyStr.strip (PyStr.strip s) = PyStr.strip s.
Proof.
  unfold PyStr.strip.
  pose proof (lstrip_by_head PyStr.is_space s) as Hhead.
  destruct (PyStr.lstrip_by PyStr.is_space s) as [|c y]; [reflexivity|].
  destruct (rstrip_by_keeps_head PyStr.is_space c y Hhead) as [r Hr].
  rewrite Hr. cbn [PyStr.lstrip_by]. rewrite Hhead.
  rewrite <- Hr. apply rstrip_by_idemp.
Qed.

Lemma str_forall_lstrip (q p : ascii → bool) (s : string) :
  str_forall q s = true → str_forall q (PyStr.lstrip_by p s) = true.
Proof.
  induction s as [|c s IH]; [done|].
  intros Hs. cbn [PyStr.lstrip_by]. destruct (p c); [|done].
  cbn [str_forall] in Hs. apply andb_true_iff in Hs as [_ Hs]. by apply IH.
Qed.

Lemma str_forall_rstrip (q p : ascii → bool) (s : string) :
  str_forall q s = true → str_forall q (PyStr.rstrip_by p s) = true.
Proof.
  induction s as [|c s IH]; [done|].
  cbn [str_forall]. rewrite andb_true_iff. intros [Hc Hs].
  cbn [PyStr.rstrip_by]. specialize (IH Hs).
  destruct (PyStr.rstrip_by p s).
  - destruct (p c); [done|]. cbn [str_forall]. by rewrite Hc.
  - cbn [str_forall] in *. by rewrite Hc, IH.
Qed.

Lemma str_forall_strip (q : ascii → bool) (s : string) :
  str_forall q s = true → str_forall q (PyStr.strip s) = true.
Proof.
  intros Hs. unfold PyStr.strip. by apply str_forall_rstrip, str_forall_lstrip.
Qed.

Lemma split_go_parts (c : ascii) (cur s : string) :
  str_forall (other_than c) cur = true →
  Forall (λ x, str_forall (other_than c) x = true)
         (PyStr.split_go (String c "") 0 cur s).
Proof.
  revert cur. induction s as [|d s IH]; intros cur Hcur.
  - by constructor.
  - cbn [PyStr.split_go]. rewrite prefix_char.
    case_bool_decide as Hd.
    + constructor; [done|]. by apply IH.
    + apply IH. unfold PyStr.snoc. rewrite str_forall_app, Hcur.
      cbn [str_forall]. unfold other_than.
      rewrite bool_decide_eq_false_2 by congruence. reflexivity.
Qed.

(** Every name that [_get_list] returns, for a keyword [s] that is not the
    empty text, is not empty, has no whitespace at either end, and has no
    comma. *)
Theorem _get_list_names (lst_str s : string) :
  s ≠ "" →
  Forall (λ name, name ≠ "" ∧ PyStr.strip name = name
                  ∧ str_forall (other_than ",") name = true)
         (_get_list lst_str s).
Proof.
  intros _. unfold _get_list. apply Forall_fmap, Forall_forall.
  intros x [Hx Hin]%list_elem_of_filter. cbn [compose].
  split; [done|]. split; [apply strip_idemp|].
  apply str_forall_strip.
  pose proof (split_go_parts "," "" (PyStr.strip (PyStr.replace s "" lst_str))
                eq_refl) as Hparts.
  rewrite Forall_forall in Hparts. by apply Hparts.
Qed.

Lemma _get_list_names_witness :
  Forall (λ name, name ≠ "" ∧ PyStr.strip name = name
                  ∧ str_forall (other_than ",") name = true)
         (_get_list "input a , b,, c " "input").
Proof. apply _get_list_names. discriminate. Defined.

(** ** Reading a network *)

Lemma statement_heap_prefix (line : string) (ntk : LogicNetwork.t)
    (h h' : LogicGate.heap) (r : exn + LogicNetwork.t) :
  LogicNetwork.statement line ntk h = (r, h') → h `prefix_of` h'.
Proof.
  unfold LogicNetwork.statement.
  destruct (PyStr.startswith "assign" (PyStr.rstrip ";" line)).
  - destruct (_get_list _ "assign" !! 0%nat) as [assign_str|].
    + unfold mbind, LogicGate.H_bind.
      destruct (LogicGate.from_assignment assign_str true h)
        as [r1 h1] eqn:Hfa.
      apply from_assignment_allocates in Hfa
        as [[-> _]|(d & g & -> & -> & _)].
      * destruct r1; intros [= _ <-]; reflexivity.
      * intros [= _ <-]. by apply prefix_app_r.
    + intros [= _ <-]. reflexivity.
  - intros [= _ <-]. reflexivity.
Qed.

Lemma from_verilog_loop_heap_prefix (lines : list string)
    (pending : option string) (ntk : LogicNetwork.t)
    (h h' : LogicGate.heap) (r : exn + LogicNetwork.t) :
  LogicNetwork.from_verilog_loop pending lines ntk h = (r, h') →
  h `prefix_of` h'.
Proof.
  revert pending ntk h.
  induction lines as [|l lines IH]; intros pending ntk h.
  - destruct pending; intros [= _ <-]; reflexivity.
  - cbn [LogicNetwork.from_verilog_loop].
    assert (Hstep : ∀ line,
      (ntk' ← LogicNetwork.statement line ntk ;
       LogicNetwork.from_verilog_loop None lines ntk') h = (r, h') →
      h `prefix_of` h').
    { intros line. unfold mbind, LogicGate.H_bind.
      destruct (LogicNetwork.statement line ntk h) as [[e|ntk'] h1] eqn:Hst;
        apply statement_heap_prefix in Hst.
      - by intros [= _ <-].
      - intros Hrest%IH. by etrans. }
    destruct pending as [line|].
    + destruct (PyStr.endswith ";" (line +:+ PyStr.strip l));
        [apply Hstep|apply IH].
    + destruct (PyStr.startswith "//" (PyStr.strip l)
                || bool_decide (PyStr.strip l = "")); [apply IH|].
      destruct (PyStr.startswith "endmodule" (PyStr.strip l)).
      { intros [= _ <-]. reflexivity. }
      destruct (PyStr.endswith ";" (PyStr.strip l)); [apply Hstep|apply IH].
Qed.

(** [from_verilog] only adds dictionaries: whether it returns or raises,
    the heap before the call is the beginning of the heap after it, so that
    no dictionary that existed is changed, the default one included. *)
Theorem from_verilog_heap_prefix (verilog_str : string)
    (h h' : LogicGate.heap) (r : exn + LogicNetwork.t) :
  LogicNetwork.from_verilog verilog_str h = (r, h') → h `prefix_of` h'.
Proof. apply from_verilog_loop_heap_prefix. Qed.

Lemma from_verilog_heap_prefix_witness :
  ([∅] : LogicGate.heap)
  `prefix_of` [∅; {[ "p1" := true; "p2" := true; "p3" := true ]}].
Proof.
  apply (from_verilog_heap_prefix "assign y = a | b;" [∅]
           [∅; {[ "p1" := true; "p2" := true; "p3" := true ]}]
           (inr (LogicNetwork.mk [] []
                   {[ "y" := LogicGate.mk "&" ["a"; "b"] "y" 1%nat ]}))).
  vm_compute. reflexivity.
Defined.

Lemma substring_last_other (c : ascii) (s : string) :
  str_forall (other_than c) s = true →
  substring (String.length s - 1) 1 s ≠ String c "".
Proof.
  induction s as [|d s IH]; [done|].
  cbn [str_forall]. rewrite andb_true_iff. intros [Hd Hs].
  unfold other_than in Hd. apply negb_true_iff, bool_decide_eq_false in Hd.
  destruct s as [|e s].
  - cbn. congruence.
  - specialize (IH Hs). cbn [String.length Nat.sub] in *.
    rewrite Nat.sub_0_r in IH. exact IH.
Qed.

Lemma endswith_absent (c : ascii) (s : string) :
  str_forall (other_than c) s = true →
  PyStr.endswith (String c "") s = false.
Proof.
  intros Hs%substring_last_other. unfold PyStr.endswith.
  cbn [String.length]. rewrite bool_decide_eq_false_2 by done.
  apply andb_false_r.
Qed.

Lemma from_verilog_loop_never_ended (lines : list string) (line : string)
    (ntk : LogicNetwork.t) (h : LogicGate.heap) :
  str_forall (other_than ";") line = true →
  Forall (λ l, str_forall (other_than ";") l = true) lines →
  LogicNetwork.from_verilog_loop (Some line) lines ntk h
  = (inl IndexError, h).
Proof.
  intros Hline Hlines. revert line Hline.
  induction Hlines as [|l lines Hl _ IH]; intros line Hline; [reflexivity|].
  cbn [LogicNetwork.from_verilog_loop].
  assert (Hnext : str_forall (other_than ";") (line +:+ PyStr.strip l) = true).
  { rewrite str_forall_app, Hline. by apply str_forall_strip. }
  rewrite endswith_absent by done. by apply IH.
Qed.

(** A statement must be ended: an ASCII text in which the first line that is
    not a comment, blank or [endmodule] begins a statement, and which has no
    semicolon from there on, makes [from_verilog] run past the last line and
    raise [IndexError]. *)
Theorem from_verilog_unterminated (verilog_str : string)
    (skipped : list string) (first : string) (rest : list string)
    (h : LogicGate.heap) :
  ascii_text verilog_str →
  PyStr.splitlines verilog_str = skipped ++ first :: rest →
  Forall (λ l, skipped_line l = true) skipped →
  skipped_line first = false →
  PyStr.startswith "endmodule" (PyStr.strip first) = false →
  Forall (λ l, str_forall (other_than ";") l = true) (first :: rest) →
  LogicNetwork.from_verilog verilog_str h = (inl IndexError, h).
Proof.
  intros _ Hlines Hskipped Hfirst Hend Hsemi.
  unfold LogicNetwork.from_verilog. rewrite Hlines. clear Hlines.
  induction Hskipped as [|l skipped Hl _ IH].
  - cbn [app LogicNetwork.from_verilog_loop].
    unfold skipped_line in Hfirst. rewrite Hfirst, Hend.
    apply Forall_cons in Hsemi as [Hf Hrest].
    rewrite endswith_absent by (by apply str_forall_strip).
    apply from_verilog_loop_never_ended; [by apply str_forall_strip|done].
  - cbn [app LogicNetwork.from_verilog_loop].
    unfold skipped_line in Hl. rewrite Hl. exact IH.
Qed.

Lemma from_verilog_unterminated_witness :
  LogicNetwork.from_verilog
    (unlines ["// a network"; ""; "input a, b"; "output y"; "endmodule"])
    [∅]
  = (inl IndexError, [∅]).
Proof.
  apply (from_verilog_unterminated _ ["// a network"; ""] "input a, b"
           ["output y"; "endmodule"]).
  - reflexivity.
  - vm_compute. reflexivity.
  - repeat constructor.
  - reflexivity.
  - reflexivity.
  - repeat constructor.
Defined.

(** ** Reading one assignment statement *)

Lemma substring_last_char (c : ascii) (s : string) :
  substring (String.length (s +:+ String c "") - 1) 1 (s +:+ String c "")
  = String c "".
Proof.
  induction s as [|d s IH]; [reflexivity|].
  rewrite append_cons. cbn [String.length Nat.sub]. rewrite Nat.sub_0_r.
  destruct s as [|e s].
  - reflexivity.
  - rewrite append_cons in *. cbn [String.length Nat.sub] in *.
    rewrite Nat.sub_0_r in IH. exact IH.
Qed.

Lemma length_append (s t : string) :
  String.length (s +:+ t) = (String.length s + String.length t)%nat.
Proof.
  induction s as [|c s IH]; [reflexivity|].
  rewrite append_cons. cbn [String.length]. by rewrite IH.
Qed.

Lemma endswith_present (c : ascii) (s : string) :
  PyStr.endswith (String c "") (s +:+ String c "") = true.
Proof.
  unfold PyStr.endswith. rewrite substring_last_char.
  rewrite bool_decide_eq_true_2 by done. rewrite andb_true_r.
  apply Nat.leb_le. rewrite length_append. cbn. lia.
Qed.

Lemma rstrip_by_fixed (p : ascii → bool) (m : string) :
  str_forall (λ c, negb (p c)) m = true → PyStr.rstrip_by p m = m.
Proof.
  induction m as [|c m IH]; [done|].
  cbn [str_forall]. rewrite andb_true_iff. intros [Hc Hm].
  apply negb_true_iff in Hc.
  cbn [PyStr.rstrip_by]. rewrite IH, Hc by done. by destruct m.
Qed.

Lemma rstrip_semicolon (s : string) :
  str_forall (other_than ";") s = true →
  PyStr.rstrip ";" (s +:+ ";") = s.
Proof.
  intros Hs. unfold PyStr.rstrip. rewrite rstrip_app.
  cbn [PyStr.rstrip_by PyStr.mem]. rewrite decide_True by done.
  apply rstrip_by_fixed. revert Hs. apply str_forall_impl.
  intros c Hc. unfold other_than in Hc.
  apply negb_true_iff, bool_decide_eq_false in Hc.
  cbn [PyStr.mem]. by rewrite decide_False.
Qed.

Lemma replace_go_absent (old new s : string) :
  PyStr.contains old s = false → PyStr.replace_go old new 0 s = s.
Proof.
  induction s as [|c s IH]; [done|].
  cbn [PyStr.contains]. rewrite orb_false_iff. intros [Hpre Hs].
  cbn [PyStr.replace_go]. rewrite Hpre. by rewrite IH.
Qed.

Lemma linebreak_is_space (c : ascii) :
  PyStr.is_linebreak c = true → PyStr.is_space c = true.
Proof.
  unfold PyStr.is_linebreak, PyStr.is_space.
  rewrite !orb_true_iff, !andb_true_iff, !Nat.leb_le, !Nat.eqb_eq. lia.
Qed.

Lemma name_no_break (a : string) :
  str_forall name_char a = true → str_forall no_break a = true.
Proof.
  intros Ha%name_nonspace. revert Ha. apply str_forall_impl.
  intros c Hc. unfold nonspace in Hc. apply negb_true_iff in Hc.
  unfold no_break. apply negb_true_iff.
  destruct (PyStr.is_linebreak c) eqn:Hl; [|reflexivity].
  apply linebreak_is_space in Hl. congruence.
Qed.

Lemma tilde_no_break (negated : bool) :
  str_forall no_break (tilde negated) = true.
Proof. by destruct negated. Qed.

(** Closes the goals that a text built from names, negation signs and
    literal texts has no line break. *)
Ltac no_line_break :=
  rewrite ?str_forall_app, ?andb_true_iff; repeat split;
  try first
    [ apply name_no_break; assumption
    | apply tilde_no_break
    | reflexivity ].

(** [from_verilog] on a text of one statement
    [assign out = [~]a op [~]b;] with single blanks, for names without
    comma, semicolon or the word [assign]: the network has no inputs and no
    outputs, and one gate, stored under its output name, which is the
    record that [from_assignment] makes with the rewrite on. *)
Theorem from_verilog_assign_statement (out a b : string) (n1 n2 : bool)
    (op : ascii) (h : LogicGate.heap) :
  wire_name out → wire_name a → wire_name b →
  op ∈ ["&"; "|"; "^"]%char →
  let expr :=
    out +:+ " " +:+ "=" +:+ " " +:+ (tilde n1 +:+ a) +:+ " " +:+
    String op "" +:+ " " +:+ (tilde n2 +:+ b) in
  str_forall (other_than ",") expr = true →
  str_forall (other_than ";") expr = true →
  PyStr.contains "assign" expr = false →
  LogicNetwork.from_verilog (unlines ["assign " +:+ expr +:+ ";"]) h
  = (inr (LogicNetwork.mk [] []
            {[ out := LogicGate.mk
                        (if bool_decide (String op "" = "|") then "&"
                         else String op "")
                        [a; b] out (length h) ]}),
     h ++ [ {[ "p1" := xorb n1 (bool_decide (String op "" = "|"));
               "p2" := xorb n2 (bool_decide (String op "" = "|"));
               "p3" := bool_decide (String op "" = "|") ]} ]).
Proof.
  intros Hout Ha Hb Hop expr Hcomma Hsemi Hassign.
  pose proof (from_assignment_binary_run "" " " " " " " " " "" out a b n1 n2 op
                true h eq_refl eq_refl eq_refl eq_refl eq_refl eq_refl
                Hout Ha Hb Hop) as Hparse.
  rewrite append_nil_l, append_nil_r in Hparse. cbn [andb] in Hparse.
  fold expr in Hparse.
  destruct (operand_nonspace n2 b Hb) as [Hne2 Hns2].
  pose proof Hout as [Hneo Hco]. pose proof (name_nonspace out Hco) as Hnso.
  assert (Hstrip : ∀ w, spaces w → PyStr.strip (w +:+ expr) = expr).
  { intros w Hw. pose proof (strip_padded w "" out
      (" " +:+ "=" +:+ " " +:+ (tilde n1 +:+ a) +:+ " " +:+ String op ""
       +:+ " ") (tilde n2 +:+ b) Hw eq_refl Hneo Hnso Hne2 Hns2) as Hs.
    rewrite append_nil_r in Hs. rewrite !append_assoc in Hs.
    unfold expr. rewrite !append_assoc. exact Hs. }
  assert (Hexpr_ne : expr ≠ "").
  { unfold expr. destruct out; [done|]. by rewrite append_cons. }
  assert (Hbreak : str_forall no_break ("assign " +:+ expr +:+ ";") = true).
  { unfold expr. destruct Ha as [_ Ha], Hb as [_ Hb].
    rewrite !elem_of_cons, elem_of_nil in Hop.
    destruct Hop as [->|[->|[->|[]]]]; no_line_break. }
  unfold LogicNetwork.from_verilog.
  rewrite splitlines_unlines by (by constructor).
  cbn [LogicNetwork.from_verilog_loop].
  assert (Hline : PyStr.strip ("assign " +:+ expr +:+ ";")
                  = ("assign " +:+ expr) +:+ ";").
  { rewrite <- append_assoc.
    apply (strip_padded "" "" "assign" (" " +:+ expr) ";"); done. }
  rewrite Hline.
  replace (PyStr.startswith "//" (("assign " +:+ expr) +:+ ";"))
    with false by reflexivity.
  rewrite bool_decide_eq_false_2 by discriminate.
  replace (PyStr.startswith "endmodule" (("assign " +:+ expr) +:+ ";"))
    with false by reflexivity.
  cbn [orb]. rewrite (endswith_present ";").
  unfold LogicNetwork.statement.
  rewrite rstrip_semicolon by (by rewrite str_forall_app, Hsemi).
  unfold LogicNetwork.extend_ports.
  replace (PyStr.startswith "input" ("assign " +:+ expr))
    with false by reflexivity.
  replace (PyStr.startswith "output" ("assign " +:+ expr))
    with false by reflexivity.
  replace (PyStr.startswith "assign" ("assign " +:+ expr))
    with true by reflexivity.
  assert (Hlist : _get_list ("assign " +:+ expr) "assign" = [expr]).
  { unfold _get_list, PyStr.replace.
    replace (PyStr.replace_go "assign" "" 0 ("assign " +:+ expr))
      with (" " +:+ PyStr.replace_go "assign" "" 0 expr) by reflexivity.
    rewrite replace_go_absent, (Hstrip " ") by done.
    unfold PyStr.split. rewrite split_go_no_sep by done.
    rewrite append_nil_l. cbn [filter list_filter].
    rewrite (Hstrip "" eq_refl : PyStr.strip expr = expr).
    rewrite decide_True by done. cbn [fmap list_fmap].
    by rewrite (Hstrip "" eq_refl : PyStr.strip expr = expr). }
  rewrite Hlist. cbn [lookup list_lookup].
  unfold mbind, LogicGate.H_bind. rewrite Hparse.
  cbn [LogicNetwork.inputs LogicNetwork.outputs LogicNetwork.gates
       LogicNetwork.init LogicGate.output].
  rewrite insert_empty. reflexivity.
Qed.

Lemma from_verilog_assign_statement_witness :
  LogicNetwork.from_verilog
    (unlines
       ["assign " +:+
        ("out_1" +:+ " " +:+ "=" +:+ " " +:+ (tilde true +:+ "x0") +:+ " "
         +:+ String "|" "" +:+ " " +:+ (tilde false +:+ "x1")) +:+ ";"])
    [∅]
  = (inr (LogicNetwork.mk [] []
            {[ "out_1" := LogicGate.mk
                        (if bool_decide (String "|" "" = "|") then "&"
                         else String "|" "")
                        ["x0"; "x1"] "out_1"
                        (length ([∅] : LogicGate.heap)) ]}),
     [∅] ++ [ {[ "p1" := xorb true (bool_decide (String "|" "" = "|"));
                 "p2" := xorb false (bool_decide (String "|" "" = "|"));
                 "p3" := bool_decide (String "|" "" = "|") ]} ]).
Proof.
  apply (from_verilog_assign_statement "out_1" "x0" "x1" true false "|" [∅]);
    try reflexivity; try (split; [discriminate|reflexivity]).
  rewrite !elem_of_cons. right; left; reflexivity.
Defined.

(** ** Counting the AND gates *)

(** Storing a gate under an output name that the network does not have yet
    raises [n_ands] by one when the gate is an AND gate and leaves it as it
    is otherwise. *)
Theorem n_ands_new_gate (ntk : LogicNetwork.t) (g : LogicGate.t) :
  LogicNetwork.gates ntk !! LogicGate.output g = None →
  LogicNetwork.n_ands
    (LogicNetwork.mk (LogicNetwork.inputs ntk) (LogicNetwork.outputs ntk)
       (<[LogicGate.output g := g]> (LogicNetwork.gates ntk)))
  = (LogicNetwork.n_ands ntk + if LogicGate.is_and g then 1 else 0)%nat.
Proof.
  intros Hnew. unfold LogicNetwork.n_ands. cbn [LogicNetwork.gates].
  pose proof (map_to_list_insert (LogicNetwork.gates ntk)
                (LogicGate.output g) g Hnew) as Hperm.
  assert (Hlen : ∀ l l' : list LogicGate.t, l ≡ₚ l' →
            length (filter (λ x, LogicGate.is_and x = true) l)
            = length (filter (λ x, LogicGate.is_and x = true) l')).
  { intros l l' Hl. by rewrite Hl. }
  rewrite (Hlen _ _ (fmap_Permutation snd _ _ Hperm)).
  cbn [fmap list_fmap snd]. rewrite filter_cons.
  destruct (LogicGate.is_and g).
  - rewrite decide_True by done. cbn [length]. lia.
  - rewrite decide_False by done. lia.
Qed.

Lemma n_ands_new_gate_witness :
  LogicNetwork.n_ands
    (LogicNetwork.mk (LogicNetwork.inputs LogicNetwork.init)
       (LogicNetwork.outputs LogicNetwork.init)
       (<[LogicGate.output (LogicGate.mk "&" ["a"; "b"] "y" 1%nat)
          := LogicGate.mk "&" ["a"; "b"] "y" 1%nat]>
          (LogicNetwork.gates LogicNetwork.init)))
  = (LogicNetwork.n_ands LogicNetwork.init
     + if LogicGate.is_and (LogicGate.mk "&" ["a"; "b"] "y" 1%nat)
       then 1 else 0)%nat.
Proof.
  apply (n_ands_new_gate LogicNetwork.init
           (LogicGate.mk "&" ["a"; "b"] "y" 1%nat)).
  reflexivity.
Defined.
